(** * Messenger: a typed publish/subscribe bus over Qt objects

    A shallow embedding of [Messenger.h] / [Messenger.cpp]: the subscription
    list, the three erase loops ([Unregister], [Unregister<TMsg>], [Cleanup]),
    [internalRegister] and the delivery loop of [internalSend], together with
    the part of Qt the code leans on: [QPointer] weak references,
    [QMetaObject::invokeMethod] with [Qt::AutoConnection], and the array of
    pointers of a [QList], which the delivery loop walks while the callbacks
    it runs erase from it. *)

From stdpp Require Import base decidable option numbers strings list.


(** ** Objects, weak pointers, tokens *)

(** A [QObject] is identified by a number that is never reused; a
    [QObject*] is such an identity or [nullptr]. *)
Definition QObject := nat.
Definition QObjectPtr := option QObject.
Abbreviation nullptr := (@None QObject).

(** [class MessageToken { QString id; ... }] *)
Record MessageToken := mkToken { id : string }.

#[global] Instance MessageToken_eq_dec : EqDecision MessageToken.
Proof. solve_decision. Defined.

(** [bool isEmpty() const { return id.isEmpty(); }] *)
Definition isEmpty (t : MessageToken) : bool := bool_decide (id t = EmptyString).

(** [bool operator==(const MessageToken& other) const { return id == other.id; }] *)
Definition token_eq (a b : MessageToken) : bool := bool_decide (id a = id b).

(** The default argument [MessageToken()] of [Register], [Send], [Unregister<TMsg>]. *)
Definition noToken : MessageToken := mkToken EmptyString.

(** The payload carried in a [QVariant]: the two message types of the test
    suite, [MyMessage {code, payload}] and [AnotherMessage {value, text}]. *)
Inductive QVariant :=
| VMyMessage (code : Z) (payload : string)
| VAnotherMessage (value : Z) (text : string).

#[global] Instance QVariant_eq_dec : EqDecision QVariant.
Proof. solve_decision. Defined.

(** ** Callbacks

    A callback is a closure over the receiver; the bodies that matter to the
    registry are the ones the test suite registers: append the message to a
    list ([received.append(msg)]), call [Messenger::Default().Unregister(r)],
    and guard a statement by [if (log.isEmpty())]. A list of receive logs is
    addressed by number. *)
Inductive Stmt :=
| SAppend (log : nat)
| SUnregister (r : QObjectPtr)
| SIfEmpty (log : nat) (body : Stmt).

#[global] Instance Stmt_eq_dec : EqDecision Stmt.
Proof. solve_decision. Defined.

Definition Callback := list Stmt.

(** [QPointer<QObject>]: remembers the object it was built from and reads as
    null once that object is destroyed. *)
Record QPointer := mkQPointer { tracked : QObjectPtr }.

#[global] Instance QPointer_eq_dec : EqDecision QPointer.
Proof. solve_decision. Defined.

(** [struct Subscription { quint64 type; MessageToken token;
                           QPointer<QObject> receiver;
                           std::function<void(const QVariant&)> callback; }] *)
Record Subscription := mkSubscription {
  type : N;
  token : MessageToken;
  receiver : QPointer;
  callback : Callback
}.

#[global] Instance Subscription_eq_dec : EqDecision Subscription.
Proof. solve_decision. Defined.

(** A task posted to another thread's event queue by a queued invocation:
    the target object and the closure [[sub, payload] { sub.callback(payload); }]. *)
Record Task := mkTask {
  target : QObject;
  task_sub : Subscription;
  task_payload : QVariant
}.

(** ** Program state

    [subscriptions] is the [QList<Subscription>] member of the singleton.
    [destroyed] lists the objects whose destructor has run, [affinity] is
    [QObject::thread()], [posted] the queued invocations not yet run.
    [dispatched] records every call of [QMetaObject::invokeMethod] made by
    the bus, in order; [logs] records every [append] made by a callback, in
    order, as (log, message). *)
Record State := mkState {
  subscriptions : list Subscription;
  destroyed : list QObject;
  affinity : QObject -> nat;
  posted : list Task;
  dispatched : list (Subscription * QVariant);
  logs : list (nat * QVariant)
}.

Definition set_subscriptions (l : list Subscription) (st : State) : State :=
  mkState l (destroyed st) (affinity st) (posted st) (dispatched st) (logs st).

Definition set_posted (q : list Task) (st : State) : State :=
  mkState (subscriptions st) (destroyed st) (affinity st) q (dispatched st) (logs st).

Definition add_dispatched (d : Subscription * QVariant) (st : State) : State :=
  mkState (subscriptions st) (destroyed st) (affinity st) (posted st)
          (dispatched st ++ [d]) (logs st).

Definition add_log (l : nat) (m : QVariant) (st : State) : State :=
  mkState (subscriptions st) (destroyed st) (affinity st) (posted st)
          (dispatched st) (logs st ++ [(l, m)]).

(** The messages appended so far to receive log [l]. *)
Definition received (l : nat) (st : State) : list QVariant :=
  (filter (fun e => e.1 = l) (logs st)).*2.

Definition alive (st : State) (o : QObject) : bool :=
  bool_decide (o ∉ destroyed st).

(** [QPointer::data()]: the tracked object while it lives, [nullptr] after. *)
Definition data (st : State) (p : QPointer) : QObjectPtr :=
  match tracked p with
  | Some o => if alive st o then Some o else nullptr
  | None => nullptr
  end.

(** [QPointer::isNull()] *)
Definition isNull (st : State) (p : QPointer) : bool :=
  bool_decide (data st p = nullptr).

(** [delete o]: the destructor runs; Qt drops the events still posted to [o]. *)
Definition destroy (o : QObject) (st : State) : State :=
  mkState (subscriptions st) (o :: destroyed st) (affinity st)
          (filter (fun t => target t ≠ o) (posted st)) (dispatched st) (logs st).

(** ** The erase loops

    [for (auto it = begin(); it != end(); ) { if (c(it)) it = erase(it); else ++it; }] *)
Fixpoint erase_loop (c : Subscription -> bool) (l : list Subscription)
  : list Subscription :=
  match l with
  | [] => []
  | it :: rest => if c it then erase_loop c rest else it :: erase_loop c rest
  end.

(** [void Messenger::Unregister(QObject* receiver)] *)
Definition Unregister (r : QObjectPtr) (st : State) : State :=
  match r with
  | None => st
  | Some _ =>
      set_subscriptions
        (erase_loop (fun it => bool_decide (data st (receiver it) = r))
                    (subscriptions st)) st
  end.

(** [template<typename TMsg> void Unregister(QObject* receiver, const MessageToken& token)],
    with [ty] standing for [typeid(TMsg).hash_code()]. *)
Definition UnregisterT (ty : N) (r : QObjectPtr) (tok : MessageToken) (st : State)
  : State :=
  set_subscriptions
    (erase_loop (fun it => bool_decide (data st (receiver it) = r)
                           && bool_decide (type it = ty)
                           && (isEmpty tok || token_eq (token it) tok))
                (subscriptions st)) st.

(** [void Messenger::Cleanup()] *)
Definition Cleanup (st : State) : State :=
  set_subscriptions
    (erase_loop (fun it => isNull st (receiver it)) (subscriptions st)) st.

(** [void Messenger::internalRegister(type, token, receiver, cb)] *)
Definition internalRegister (ty : N) (tok : MessageToken) (r : QObjectPtr)
    (cb : Callback) (st : State) : State :=
  set_subscriptions
    (subscriptions st ++ [mkSubscription ty tok (mkQPointer r) cb]) st.

(** ** Running a callback *)

Fixpoint run_stmt (s : Stmt) (m : QVariant) (st : State) : State :=
  match s with
  | SAppend l => add_log l m st
  | SUnregister r => Unregister r st
  | SIfEmpty l body =>
      if bool_decide (received l st = []) then run_stmt body m st else st
  end.

Fixpoint run_callback (cb : Callback) (m : QVariant) (st : State) : State :=
  match cb with
  | [] => st
  | s :: cb' => run_callback cb' m (run_stmt s m st)
  end.

(** ** Delivery

    [QMetaObject::invokeMethod(sub.receiver, [sub, payload] {...}, Qt::AutoConnection)],
    called from thread [cur]: the call is recorded; a receiver living in the
    calling thread has the closure run at once, any other has it posted to
    its thread's queue. The caller has checked that the receiver is not null. *)
Definition invokeMethod (cur : nat) (sub : Subscription) (m : QVariant)
    (st : State) : State :=
  match data st (receiver sub) with
  | None => st
  | Some o =>
      let st1 := add_dispatched (sub, m) st in
      if bool_decide (affinity st o = cur)
      then run_callback (callback sub) m st1
      else set_posted (posted st1 ++ [mkTask o sub m]) st1
  end.

(** The body of the range-for of [internalSend] for the element [sub]. *)
Definition send_body (cur : nat) (ty : N) (tok : MessageToken) (m : QVariant)
    (sub : Subscription) (st : State) : State :=
  if negb (bool_decide (type sub = ty)) then st
  else
    let tokenMatch := isEmpty (token sub) || isEmpty tok || token_eq (token sub) tok in
    if negb tokenMatch then st
    else if isNull st (receiver sub) then st
    else invokeMethod cur sub m st.

(** How a run of [internalSend] ends: the loop reached its end, or it went
    on to dereference an iterator whose element has been deleted. *)
Inductive Outcome :=
| Done (st : State)
| InvalidIterator (st : State).

Definition state_of (o : Outcome) : State :=
  match o with Done st => st | InvalidIterator st => st end.

(** *** The list under a running loop (Qt 5.15's [QList])

    A [QList<Subscription>] keeps an array of pointers to heap copies of its
    elements; its iterators are pointers to slots of that array. While
    [internalSend] walks the list, a callback may erase entries, and the
    loop goes on with the iterator and the [end()] it holds. What it then
    reads is decided by the array: [d_array] gives the pointer in each slot
    (slots are counted from the [begin()] the loop took), [d_begin] and
    [d_end] bound the live slots, [deleted] lists the heap copies that
    [node_destruct] has deleted. A pointer is the identity of the heap copy
    together with the element stored there. *)
Record Node := mkNode { node_id : nat; element : Subscription }.

Record QListData := mkQListData {
  d_array : nat -> option Node;
  d_begin : nat;
  d_end : nat;
  deleted : list nat
}.

(** The array when the loop starts: one heap copy per entry. *)
Definition fresh (l : list Subscription) : QListData :=
  mkQListData (fun j => mkNode j <$> l !! j) 0 (length l) [].

(** [QList::size()] *)
Definition size (p : QListData) : nat := d_end p - d_begin p.

(** [void QListData::remove(int i)]: the shorter side is moved.
    [i += d->begin;
     if (i - d->begin < d->end - i) {
         memmove(d->array + d->begin + 1, d->array + d->begin, offset);
         d->begin++;
     } else {
         memmove(d->array + i, d->array + i + 1, offset);
         d->end--;
     }],
    the first [offset] being the [i - d->begin] pointers before the entry,
    the second the [d->end - i - 1] pointers behind it. *)
Definition QListData_remove (i : nat) (p : QListData) : QListData :=
  let a := d_array p in
  let i' := i + d_begin p in
  if i' - d_begin p <? d_end p - i'
  then mkQListData
         (fun j => if bool_decide (d_begin p < j <= i') then a (j - 1) else a j)
         (S (d_begin p)) (d_end p) (deleted p)
  else mkQListData
         (fun j => if bool_decide (i' <= j < d_end p - 1) then a (j + 1) else a j)
         (d_begin p) (d_end p - 1) (deleted p).

(** [QList::erase(iterator it)] at the entry of index [i]:
    [node_destruct(it.i); return p.erase(it.i);], the list not being shared. *)
Definition QList_erase (i : nat) (p : QListData) : QListData :=
  match d_array p (d_begin p + i) with
  | Some nd =>
      QListData_remove i
        (mkQListData (d_array p) (d_begin p) (d_end p) (node_id nd :: deleted p))
  | None => p
  end.

(** The erase loop of [Unregister] on the array: [it] stands at index [j],
    [n] entries are still to be looked at. *)
Fixpoint erase_loop_array (c : Subscription -> bool) (n j : nat) (p : QListData)
  : QListData :=
  match n with
  | 0 => p
  | S n' =>
      match d_array p (d_begin p + j) with
      | Some nd =>
          if c (element nd)
          then erase_loop_array c n' j (QList_erase j p)
          else erase_loop_array c n' (S j) p
      | None => p
      end
  end.

(** What the statements of a callback do to the array, beside what
    [run_stmt] does to the registry: the erases of [Unregister]. *)
Fixpoint stmt_erases (s : Stmt) (st : State) (p : QListData) : QListData :=
  match s with
  | SAppend _ => p
  | SUnregister r =>
      match r with
      | None => p
      | Some _ =>
          erase_loop_array (fun it => bool_decide (data st (receiver it) = r))
                           (size p) 0 p
      end
  | SIfEmpty l body =>
      if bool_decide (received l st = []) then stmt_erases body st p else p
  end.

Fixpoint callback_erases (cb : Callback) (m : QVariant) (st : State)
    (p : QListData) : QListData :=
  match cb with
  | [] => p
  | s :: cb' => callback_erases cb' m (run_stmt s m st) (stmt_erases s st p)
  end.

(** The array after [invokeMethod]: a callback run at once leaves its
    erases, a posted one leaves the array alone. *)
Definition invokeMethod_array (cur : nat) (sub : Subscription) (m : QVariant)
    (st : State) (p : QListData) : QListData :=
  match data st (receiver sub) with
  | None => p
  | Some o =>
      if bool_decide (affinity st o = cur)
      then callback_erases (callback sub) m (add_dispatched (sub, m) st) p
      else p
  end.

(** The array after the body of the range-for for the element [sub]. *)
Definition send_body_array (cur : nat) (ty : N) (tok : MessageToken)
    (m : QVariant) (sub : Subscription) (st : State) (p : QListData)
  : QListData :=
  if negb (bool_decide (type sub = ty)) then p
  else
    let tokenMatch := isEmpty (token sub) || isEmpty tok || token_eq (token sub) tok in
    if negb tokenMatch then p
    else if isNull st (receiver sub) then p
    else invokeMethod_array cur sub m st p.

(** [for (const auto& sub : std::as_const(subscriptions))]: [begin()] and
    [end()] are taken once, before the first iteration, and the iterator
    walks the array of the list member itself. [it] is the slot the iterator
    points to and [n] the distance left to the [end()] taken at the start.
    The loop reads whatever pointer the slot holds, be the slot live or not;
    following a pointer to a deleted heap copy is the one step the loop
    cannot take. *)
Fixpoint send_loop (n it : nat) (cur : nat) (ty : N) (tok : MessageToken)
    (m : QVariant) (st : State) (p : QListData) : Outcome * QListData :=
  match n with
  | 0 => (Done st, p)
  | S n' =>
      match d_array p it with
      | None => (InvalidIterator st, p)
      | Some nd =>
          if bool_decide (node_id nd ∈ deleted p) then (InvalidIterator st, p)
          else
            let sub := element nd in
            send_loop n' (S it) cur ty tok m
                      (send_body cur ty tok m sub st)
                      (send_body_array cur ty tok m sub st p)
      end
  end.

(** [void Messenger::internalSend(quint64 type, const MessageToken& token, const QVariant& payload)] *)
Definition internalSend (cur : nat) (ty : N) (tok : MessageToken) (m : QVariant)
    (st : State) : Outcome :=
  (send_loop (length (subscriptions st)) 0 cur ty tok m st
             (fresh (subscriptions st))).1.

(** The event loop of thread [t] runs the invocations posted to its objects,
    oldest first; the others stay queued. *)
Fixpoint run_posted (t : nat) (q : list Task) (st : State) : State :=
  match q with
  | [] => st
  | k :: q' =>
      if bool_decide (affinity st (target k) = t) && alive st (target k)
      then run_posted t q' (run_callback (callback (task_sub k)) (task_payload k) st)
      else run_posted t q' st
  end.

Definition processEvents (t : nat) (st : State) : State :=
  let q := posted st in
  run_posted t q
    (set_posted (filter (fun k => affinity st (target k) ≠ t) q) st).

(** [Send] called for each message of [ms] in turn, from thread [cur]. *)
Fixpoint send_all (cur : nat) (ty : N) (tok : MessageToken) (ms : list QVariant)
    (st : State) : Outcome :=
  match ms with
  | [] => Done st
  | m :: ms' =>
      match internalSend cur ty tok m st with
      | Done st' => send_all cur ty tok ms' st'
      | InvalidIterator st' => InvalidIterator st'
      end
  end.

(** ** Vocabulary of the statements *)

(** The calls of [invokeMethod] made between two states. *)
Definition deliveries (before after : State) : list (Subscription * QVariant) :=
  drop (length (dispatched before)) (dispatched after).

(** The decision the loop body takes for an entry: the three [continue]s
    of [internalSend], read positively. *)
Definition selected (st : State) (ty : N) (tok : MessageToken) (sub : Subscription)
  : bool :=
  bool_decide (type sub = ty)
  && (isEmpty (token sub) || isEmpty tok || token_eq (token sub) tok)
  && negb (isNull st (receiver sub)).

(** Every pointer of the array is to a copy of an entry of [L]. *)
Definition slots_within (p : QListData) (L : list Subscription) : Prop :=
  forall j nd, d_array p j = Some nd -> element nd ∈ L.

(** From slot [it] on, the array holds pointers to copies of the entries of
    [seg], in this order, none of them deleted. *)
Definition reads (p : QListData) (it : nat) (seg : list Subscription) : Prop :=
  forall i s, seg !! i = Some s ->
    exists id, d_array p (it + i) = Some (mkNode id s) /\ id ∉ deleted p.

(** The array spells the list [L]: its live slots, from [begin()] to
    [end()], hold pointers to copies of the entries of [L], in this order. *)
Definition spells (p : QListData) (L : list Subscription) : Prop :=
  d_end p = d_begin p + length L
  /\ forall i, i < length L -> element <$> d_array p (d_begin p + i) = L !! i.

(** A statement that never touches the registry, and a callback made of such. *)
Fixpoint stmt_passive (s : Stmt) : bool :=
  match s with
  | SAppend _ => true
  | SUnregister _ => false
  | SIfEmpty _ body => stmt_passive body
  end.

Definition cb_passive (cb : Callback) : bool := forallb stmt_passive cb.

Definition passive (l : list Subscription) : Prop :=
  Forall (fun s => cb_passive (callback s) = true) l.

(** The statement may append to log [l]. *)
Fixpoint stmt_writes (l : nat) (s : Stmt) : bool :=
  match s with
  | SAppend l' => bool_decide (l' = l)
  | SUnregister _ => false
  | SIfEmpty _ body => stmt_writes l body
  end.

Definition cb_writes (l : nat) (cb : Callback) : bool := existsb (stmt_writes l) cb.

(** The entry was registered for object [o]. *)
Definition registered_for (o : QObject) (s : Subscription) : Prop :=
  tracked (receiver s) = Some o.

#[global] Instance registered_for_dec o s : Decision (registered_for o s).
Proof. unfold registered_for. apply _. Defined.

(** The closure of [self_unregister_in_callback]:
    [if (log.isEmpty()) Messenger::Default().Unregister(o); log.append(m);] *)
Definition selfUnregistering (o : QObject) (l : nat) : Callback :=
  [SIfEmpty l (SUnregister (Some o)); SAppend l].

(** An entry of receiver [o] with that closure. *)
Definition selfUnregisteringEntry (ty : N) (tok : MessageToken) (o : QObject)
    (l : nat) : Subscription :=
  mkSubscription ty tok (mkQPointer (Some o)) (selfUnregistering o l).

(** [TestReceiver::onMessage], without its signal: [received.append(msg)]. *)
Definition onMessage (l : nat) : Callback := [SAppend l].

(** Delivery as the specification words it: the loop walks a snapshot taken
    when [send] starts, so nothing a callback does to the registry reaches
    the iteration. Kept beside [internalSend] to compare the two. *)
Fixpoint snapshot_loop (snap : list Subscription) (cur : nat) (ty : N)
    (tok : MessageToken) (m : QVariant) (st : State) : State :=
  match snap with
  | [] => st
  | sub :: rest => snapshot_loop rest cur ty tok m (send_body cur ty tok m sub st)
  end.

Definition snapshotSend (cur : nat) (ty : N) (tok : MessageToken) (m : QVariant)
    (st : State) : State :=
  snapshot_loop (subscriptions st) cur ty tok m st.

(** The parts of the state no callback of this language reaches, and the
    one it can only shrink. *)
Definition callback_frame (st st' : State) : Prop :=
  destroyed st' = destroyed st
  /\ affinity st' = affinity st
  /\ posted st' = posted st
  /\ dispatched st' = dispatched st
  /\ subscriptions st' `sublist_of` subscriptions st.

(** The calls [internalSend] makes for message [m] when no callback
    disturbs the loop: one per selected entry, in list order. *)
Definition calls (st : State) (ty : N) (tok : MessageToken) (m : QVariant)
  : list (Subscription * QVariant) :=
  (fun s => (s, m)) <$>
    filter (fun s => selected st ty tok s = true) (subscriptions st).

(** ** Scenarios of the test suite

    Two message types, the objects the tests register, and an empty bus
    whose objects all live in the main thread (thread 0). *)
Definition MyMessageT : N := 1.
Definition AnotherMessageT : N := 2.

Definition memberReceiver : QObject := 1.
Definition lambdaReceiver : QObject := 2.
Definition ephemeral : QObject := 3.
Definition otherReceiver : QObject := 4.

Definition alpha : MessageToken := mkToken "alpha"%string.
Definition beta : MessageToken := mkToken "beta"%string.

Definition hello : QVariant := VMyMessage 42 "hello"%string.
Definition first : QVariant := VMyMessage 10 "first"%string.
Definition second : QVariant := VMyMessage 11 "second"%string.

Definition idle : State := mkState [] [] (fun _ => 0) [] [] [].

(** [Register<MyMessage>(&memberReceiver, &TestReceiver::onMessage, token)],
    log 1 being [memberReceiver.received]. *)
Definition memberEntry (tok : MessageToken) : Subscription :=
  mkSubscription MyMessageT tok (mkQPointer (Some memberReceiver)) (onMessage 1).

(** The entry of [self_unregister_in_callback], log 2 being [lambdaReceived]. *)
Definition selfEntry : Subscription :=
  selfUnregisteringEntry MyMessageT noToken lambdaReceiver 2.

(** An entry of another object, log 4 being its list. *)
Definition otherEntry : Subscription :=
  mkSubscription MyMessageT noToken (mkQPointer (Some otherReceiver)) (onMessage 4).

(** An entry registered with a null receiver. *)
Definition nullEntry : Subscription :=
  mkSubscription MyMessageT noToken (mkQPointer nullptr) (onMessage 0).

(** An entry registered for [ephemeral]. *)
Definition ephemeralEntry : Subscription :=
  mkSubscription MyMessageT noToken (mkQPointer (Some ephemeral)) [].

Definition bus (l : list Subscription) : State := set_subscriptions l idle.

(** The same with [otherReceiver] moved to a worker thread (thread 1), as in
    [async_dispatch_to_other_thread]. *)
Definition busWithWorker (l : list Subscription) : State :=
  mkState l [] (fun o => if bool_decide (o = otherReceiver) then 1 else 0)
          [] [] [].

(** [Send<T>(m, tok)] from the main thread, the state kept however it ends. *)
Definition Send (ty : N) (m : QVariant) (tok : MessageToken) (st : State) : State :=
  state_of (internalSend 0 ty tok m st).

(** [Register<MyMessage>(&memberReceiver, &TestReceiver::onMessage, tok)] *)
Definition RegisterMember (tok : MessageToken) (st : State) : State :=
  internalRegister MyMessageT tok (Some memberReceiver) (onMessage 1) st.

(** ** The rest of [MessageToken] *)

(** [bool operator!=(const MessageToken& other) const]: the negation of [operator==]. *)
Definition token_ne (a b : MessageToken) : bool := negb (token_eq a b).

(** [QString toString() const { return id; }] *)
Definition toString (t : MessageToken) : string := id t.

(** [inline uint qHash(const MessageToken& token, uint seed = 0)
       { return qHash(token.toString(), seed); }],
    over Qt's hash of a string, [qHashString]. *)
Definition qHash (qHashString : string -> N -> N) (t : MessageToken) (seed : N) : N :=
  qHashString (toString t) seed.

(** The test of line 36 of [internalSend]:
    [sub.token.isEmpty() || token.isEmpty() || sub.token == token]. *)
Definition tokenMatch (sub_token tok : MessageToken) : bool :=
  isEmpty sub_token || isEmpty tok || token_eq sub_token tok.

(** ** The typed templates

    The message types of [tst_Messenger.h], with their member initializers. *)
Record MyMessage := mkMyMessage { code : Z; payload : string }.
Record AnotherMessage := mkAnotherMessage { value : Z; text : string }.

Inductive MsgType := TMyMessage | TAnotherMessage.

#[global] Instance MsgType_eq_dec : EqDecision MsgType.
Proof. solve_decision. Defined.

(** The values of template parameter [TMsg]. *)
Definition msg (T : MsgType) : Type :=
  match T with
  | TMyMessage => MyMessage
  | TAnotherMessage => AnotherMessage
  end.

(** The default-constructed message: [int code = 0; QString payload;]. *)
Definition defaultMsg (T : MsgType) : msg T :=
  match T with
  | TMyMessage => mkMyMessage 0 EmptyString
  | TAnotherMessage => mkAnotherMessage 0 EmptyString
  end.

(** [payload.setValue(message)] *)
Definition QVariant_setValue (T : MsgType) : msg T -> QVariant :=
  match T with
  | TMyMessage => fun x => VMyMessage (code x) (payload x)
  | TAnotherMessage => fun x => VAnotherMessage (value x) (text x)
  end.

(** [var.value<TMsg>()]: the stored message when the variant holds a [TMsg],
    a default-constructed [TMsg] otherwise. *)
Definition QVariant_value (T : MsgType) (var : QVariant) : msg T :=
  match T return msg T with
  | TMyMessage =>
      match var with
      | VMyMessage c p => mkMyMessage c p
      | _ => defaultMsg TMyMessage
      end
  | TAnotherMessage =>
      match var with
      | VAnotherMessage v t => mkAnotherMessage v t
      | _ => defaultMsg TAnotherMessage
      end
  end.

(** [template<typename TMsg, typename TFunc> void Register(QObject* receiver,
    TFunc&& callback, const MessageToken& token)], over the value
    [hash_code T] of [typeid(TMsg).hash_code()]; the wrapper hands the
    callback [var.value<TMsg>()]. The member-function overload passes the
    closure [(receiver->*method)(msg)] to this one. *)
Definition RegisterTMsg (hash_code : MsgType -> N) (T : MsgType)
    (r : QObjectPtr) (cb : Callback) (tok : MessageToken) (st : State) : State :=
  internalRegister (hash_code T) tok r cb st.

(** [template<typename TMsg> void Send(const TMsg& message, const MessageToken& token)],
    called from thread [cur]. *)
Definition SendTMsg (hash_code : MsgType -> N) (cur : nat) (T : MsgType)
    (message : msg T) (tok : MessageToken) (st : State) : Outcome :=
  internalSend cur (hash_code T) tok (QVariant_setValue T message) st.

(** ** The fixture of the test class *)

(** [QList::clear()] on receive log [l]. *)
Definition clear_log (l : nat) (st : State) : State :=
  mkState (subscriptions st) (destroyed st) (affinity st) (posted st)
          (dispatched st) (filter (fun e => e.1 ≠ l) (logs st)).

(** [void MessengerTest::init()] *)
Definition MessengerTest_init (st : State) : State :=
  Unregister (Some lambdaReceiver)
    (Unregister (Some memberReceiver)
       (Cleanup (clear_log 2 (clear_log 1 st)))).

(** [void MessengerTest::cleanup()] *)
Definition MessengerTest_cleanup (st : State) : State :=
  Cleanup (Unregister (Some lambdaReceiver) (Unregister (Some memberReceiver) st)).

(** ** The erase loops as filters *)

Section EraseLoop.
Variable c : Subscription -> bool.

Lemma erase_loop_filter l :
  erase_loop c l = filter (fun it => c it = false) l.
Proof.
  induction l as [|it rest IH]; [done|].
  cbn [erase_loop]. destruct (c it) eqn:E.
  - rewrite filter_cons_False by congruence. exact IH.
  - rewrite filter_cons_True by done. by rewrite IH.
Qed.

Lemma erase_loop_sublist l : erase_loop c l `sublist_of` l.
Proof. rewrite erase_loop_filter. apply sublist_filter. Qed.

Lemma elem_of_erase_loop s l :
  s ∈ erase_loop c l <-> s ∈ l /\ c s = false.
Proof. rewrite erase_loop_filter, list_elem_of_filter. tauto. Qed.

Lemma erase_loop_idemp l : erase_loop c (erase_loop c l) = erase_loop c l.
Proof.
  induction l as [|it rest IH]; [done|].
  cbn [erase_loop]. destruct (c it) eqn:E; [done|].
  cbn [erase_loop]. by rewrite E, IH.
Qed.

Lemma erase_loop_none l :
  Forall (fun it => c it = false) l -> erase_loop c l = l.
Proof.
  induction 1 as [|it rest H _ IH]; [done|].
  cbn [erase_loop]. by rewrite H, IH.
Qed.

Lemma erase_loop_app l k :
  erase_loop c (l ++ k) = erase_loop c l ++ erase_loop c k.
Proof.
  induction l as [|it rest IH]; [done|].
  cbn [erase_loop app]. rewrite IH. by destruct (c it).
Qed.
End EraseLoop.

Lemma erase_loop_ext c1 c2 l :
  (forall it, it ∈ l -> c1 it = c2 it) -> erase_loop c1 l = erase_loop c2 l.
Proof.
  induction l as [|it rest IH]; intros H; [done|].
  cbn [erase_loop]. rewrite (H it) by left.
  rewrite IH; [done|]. intros x Hx. apply H. by right.
Qed.

(** ** What depends on which part of the state *)

Lemma data_ext st st' p :
  destroyed st' = destroyed st -> data st' p = data st p.
Proof. intros H. unfold data, alive. by rewrite H. Qed.

Lemma isNull_ext st st' p :
  destroyed st' = destroyed st -> isNull st' p = isNull st p.
Proof. intros H. unfold isNull. by rewrite (data_ext st st' p H). Qed.

Lemma selected_ext st st' ty tok sub :
  destroyed st' = destroyed st -> selected st' ty tok sub = selected st ty tok sub.
Proof. intros H. unfold selected. by rewrite (isNull_ext st st' _ H). Qed.

Lemma data_Some st p o : data st p = Some o -> tracked p = Some o /\ alive st o = true.
Proof.
  unfold data. destruct (tracked p) as [o'|]; [|done].
  destruct (alive st o') eqn:E; [|done]. intros [= ->]. done.
Qed.

Lemma data_live st p o :
  tracked p = Some o -> alive st o = true -> data st p = Some o.
Proof. intros Ht Ha. unfold data. by rewrite Ht, Ha. Qed.

Lemma isNull_false st p :
  isNull st p = false <-> exists o, tracked p = Some o /\ alive st o = true.
Proof.
  unfold isNull. rewrite bool_decide_eq_false. split.
  - destruct (data st p) as [o|] eqn:E; [|done].
    intros _. exists o. by apply data_Some.
  - intros (o & Ht & Ha). by rewrite (data_live st p o Ht Ha).
Qed.

Lemma selected_spec st ty tok sub :
  selected st ty tok sub = true <->
  type sub = ty
  /\ (isEmpty (token sub) = true \/ isEmpty tok = true \/ token sub = tok)
  /\ isNull st (receiver sub) = false.
Proof.
  unfold selected, token_eq.
  rewrite !andb_true_iff, !orb_true_iff, negb_true_iff, !bool_decide_eq_true.
  assert (id (token sub) = id tok <-> token sub = tok) as ->.
  { destruct (token sub), tok; cbn; naive_solver. }
  tauto.
Qed.

Lemma send_body_selected cur ty tok m sub st :
  send_body cur ty tok m sub st =
  if selected st ty tok sub then invokeMethod cur sub m st else st.
Proof.
  unfold send_body, selected.
  destruct (bool_decide (type sub = ty)); [|done]. cbn [negb andb].
  destruct (isEmpty (token sub) || isEmpty tok || token_eq (token sub) tok);
    [|done].
  cbn [negb andb]. by destruct (isNull st (receiver sub)).
Qed.

(** ** What a callback can change *)

Lemma Unregister_sublist r st :
  subscriptions (Unregister r st) `sublist_of` subscriptions st.
Proof. destruct r; cbn; [apply erase_loop_sublist|done]. Qed.

Lemma Unregister_fields r st :
  destroyed (Unregister r st) = destroyed st
  /\ affinity (Unregister r st) = affinity st
  /\ posted (Unregister r st) = posted st
  /\ dispatched (Unregister r st) = dispatched st
  /\ logs (Unregister r st) = logs st.
Proof. by destruct r. Qed.

Lemma callback_frame_refl st : callback_frame st st.
Proof. by unfold callback_frame. Qed.

Lemma callback_frame_trans st1 st2 st3 :
  callback_frame st1 st2 -> callback_frame st2 st3 -> callback_frame st1 st3.
Proof.
  intros (a1 & a2 & a3 & a4 & a5) (b1 & b2 & b3 & b4 & b5).
  repeat split; try congruence. by etrans.
Qed.

Lemma run_stmt_frame s m st : callback_frame st (run_stmt s m st).
Proof.
  induction s as [l|r|l body IH]; cbn [run_stmt].
  - by unfold callback_frame.
  - destruct (Unregister_fields r st) as (? & ? & ? & ? & _).
    repeat split; try done. apply Unregister_sublist.
  - case_bool_decide; [exact IH|apply callback_frame_refl].
Qed.

Lemma run_callback_frame cb m st : callback_frame st (run_callback cb m st).
Proof.
  revert st. induction cb as [|s cb IH]; intros st; cbn [run_callback].
  - apply callback_frame_refl.
  - eapply callback_frame_trans; [apply run_stmt_frame|apply IH].
Qed.

Lemma run_stmt_passive s m st :
  stmt_passive s = true -> subscriptions (run_stmt s m st) = subscriptions st.
Proof.
  induction s as [l|r|l body IH]; cbn [run_stmt stmt_passive]; intros H;
    [done|done|].
  case_bool_decide; [by apply IH|done].
Qed.

Lemma run_callback_passive cb m st :
  cb_passive cb = true -> subscriptions (run_callback cb m st) = subscriptions st.
Proof.
  revert st. unfold cb_passive.
  induction cb as [|s cb IH]; intros st; cbn [run_callback forallb]; [done|].
  rewrite andb_true_iff. intros [Hs Hcb].
  rewrite IH by done. by apply run_stmt_passive.
Qed.

Lemma received_add_log_eq l m st :
  received l (add_log l m st) = received l st ++ [m].
Proof.
  unfold received, add_log. cbn [logs].
  rewrite filter_app, fmap_app. f_equal.
  rewrite filter_cons_True by done. done.
Qed.

Lemma received_add_log_ne l l' m st :
  l' ≠ l -> received l (add_log l' m st) = received l st.
Proof.
  intros H. unfold received, add_log. cbn [logs].
  rewrite filter_app, fmap_app.
  rewrite filter_cons_False by (cbn; congruence).
  by rewrite filter_nil, app_nil_r.
Qed.

Lemma run_stmt_received l s m st :
  stmt_writes l s = false -> received l (run_stmt s m st) = received l st.
Proof.
  induction s as [l'|r|l' body IH]; cbn [run_stmt stmt_writes]; intros H.
  - apply bool_decide_eq_false in H. by apply received_add_log_ne.
  - unfold received. by destruct r.
  - case_bool_decide; [by apply IH|done].
Qed.

Lemma run_callback_received l cb m st :
  cb_writes l cb = false -> received l (run_callback cb m st) = received l st.
Proof.
  revert st. unfold cb_writes.
  induction cb as [|s cb IH]; intros st; cbn [run_callback existsb]; [done|].
  rewrite orb_false_iff. intros [Hs Hcb].
  rewrite IH by done. by apply run_stmt_received.
Qed.

(** ** One call of [invokeMethod] *)

Lemma invokeMethod_direct cur sub m st o :
  data st (receiver sub) = Some o -> affinity st o = cur ->
  invokeMethod cur sub m st
  = run_callback (callback sub) m (add_dispatched (sub, m) st).
Proof.
  intros Hd Ha. unfold invokeMethod. rewrite Hd. cbn zeta.
  by rewrite bool_decide_eq_true_2.
Qed.

Lemma invokeMethod_queued cur sub m st o :
  data st (receiver sub) = Some o -> affinity st o ≠ cur ->
  invokeMethod cur sub m st
  = set_posted (posted st ++ [mkTask o sub m]) (add_dispatched (sub, m) st).
Proof.
  intros Hd Ha. unfold invokeMethod. rewrite Hd. cbn zeta.
  by rewrite bool_decide_eq_false_2.
Qed.

Lemma invokeMethod_frame cur sub m st :
  isNull st (receiver sub) = false ->
  let st' := invokeMethod cur sub m st in
  destroyed st' = destroyed st
  /\ affinity st' = affinity st
  /\ dispatched st' = dispatched st ++ [(sub, m)]
  /\ subscriptions st' `sublist_of` subscriptions st.
Proof.
  intros Hn. apply isNull_false in Hn as (o & Ht & Ha).
  unfold invokeMethod. rewrite (data_live st _ o Ht Ha). cbn zeta.
  case_bool_decide.
  - destruct (run_callback_frame (callback sub) m (add_dispatched (sub, m) st))
      as (? & ? & ? & ? & ?). done.
  - done.
Qed.

Lemma invokeMethod_passive cur sub m st :
  isNull st (receiver sub) = false ->
  cb_passive (callback sub) = true ->
  subscriptions (invokeMethod cur sub m st) = subscriptions st.
Proof.
  intros Hn Hp. apply isNull_false in Hn as (o & Ht & Ha).
  unfold invokeMethod. rewrite (data_live st _ o Ht Ha). cbn zeta.
  case_bool_decide; [|done]. by rewrite run_callback_passive.
Qed.

Lemma invokeMethod_received l cur sub m st :
  cb_writes l (callback sub) = false ->
  received l (invokeMethod cur sub m st) = received l st.
Proof.
  intros Hw. unfold invokeMethod.
  destruct (data st (receiver sub)) as [o|]; [|done]. cbn zeta.
  case_bool_decide; [|done]. by rewrite run_callback_received.
Qed.

Lemma send_body_posted cur ty tok m sub st :
  exists q,
    posted (send_body cur ty tok m sub st) = posted st ++ q
    /\ Forall (fun k => task_sub k = sub /\ registered_for (target k) sub
                        /\ task_payload k = m) q.
Proof.
  rewrite send_body_selected.
  destruct (selected st ty tok sub); [|exists []; by rewrite app_nil_r].
  unfold invokeMethod.
  destruct (data st (receiver sub)) as [o|] eqn:Hd;
    [|exists []; by rewrite app_nil_r].
  cbn zeta. case_bool_decide.
  - exists []. rewrite app_nil_r.
    by destruct (run_callback_frame (callback sub) m (add_dispatched (sub, m) st))
      as (_ & _ & -> & _).
  - exists [mkTask o sub m]. split; [done|].
    apply Forall_singleton. cbn. apply data_Some in Hd as [Ht _]. done.
Qed.

Lemma send_body_frame cur ty tok m sub st :
  let st' := send_body cur ty tok m sub st in
  destroyed st' = destroyed st
  /\ affinity st' = affinity st
  /\ subscriptions st' `sublist_of` subscriptions st
  /\ dispatched st' =
     dispatched st ++ (if selected st ty tok sub then [(sub, m)] else []).
Proof.
  cbn zeta. rewrite send_body_selected.
  destruct (selected st ty tok sub) eqn:E.
  - apply selected_spec in E as (_ & _ & Hn).
    destruct (invokeMethod_frame cur sub m st Hn) as (? & ? & ? & ?). done.
  - by rewrite app_nil_r.
Qed.

(** ** The array under the loop *)

Lemma slots_within_fresh l : slots_within (fresh l) l.
Proof.
  intros j nd H. cbn in H. destruct (l !! j) as [s|] eqn:E; [|done].
  injection H as <-. cbn. by eapply list_elem_of_lookup_2.
Qed.

Lemma reads_fresh before seg after :
  reads (fresh (before ++ seg ++ after)) (length before) seg.
Proof.
  intros i s Hs. exists (length before + i). split; [|by apply not_elem_of_nil].
  cbn. rewrite lookup_app_r by lia.
  replace (length before + i - length before) with i by lia.
  by rewrite (lookup_app_l_Some _ _ _ _ Hs).
Qed.

Lemma reads_cons p it s seg :
  reads p it (s :: seg) ->
  (exists id, d_array p it = Some (mkNode id s) /\ id ∉ deleted p)
  /\ reads p (S it) seg.
Proof.
  intros H. split.
  - destruct (H 0 s eq_refl) as (id & Hid & Hdel). exists id.
    by rewrite Nat.add_0_r in Hid.
  - intros i s' Hs'. destruct (H (S i) s' Hs') as (id & Hid & Hdel).
    exists id. by replace (S it + i) with (it + S i) by lia.
Qed.

Lemma slots_within_remove i p L :
  slots_within p L -> slots_within (QListData_remove i p) L.
Proof.
  intros H j nd. unfold QListData_remove. cbn zeta.
  destruct (_ <? _); cbn [d_array]; case_bool_decide; apply H.
Qed.

Lemma slots_within_erase i p L :
  slots_within p L -> slots_within (QList_erase i p) L.
Proof.
  intros H. unfold QList_erase. destruct (d_array p (d_begin p + i)); [|done].
  by apply slots_within_remove.
Qed.

Lemma slots_within_erase_loop_array c n : forall j p L,
  slots_within p L -> slots_within (erase_loop_array c n j p) L.
Proof.
  induction n as [|n IH]; intros j p L H; cbn [erase_loop_array]; [done|].
  destruct (d_array p (d_begin p + j)) as [nd|]; [|done].
  destruct (c (element nd)); apply IH; [by apply slots_within_erase|done].
Qed.

Lemma slots_within_stmt s st p L :
  slots_within p L -> slots_within (stmt_erases s st p) L.
Proof.
  intros H. induction s as [l|r|l body IH]; cbn [stmt_erases]; [done| |].
  - destruct r; [|done]. by apply slots_within_erase_loop_array.
  - by case_bool_decide.
Qed.

Lemma slots_within_callback cb m : forall st p L,
  slots_within p L -> slots_within (callback_erases cb m st p) L.
Proof.
  induction cb as [|s cb IH]; intros st p L H; cbn [callback_erases]; [done|].
  apply IH. by apply slots_within_stmt.
Qed.

Lemma send_body_array_selected cur ty tok m sub st p :
  send_body_array cur ty tok m sub st p =
  if selected st ty tok sub then invokeMethod_array cur sub m st p else p.
Proof.
  unfold send_body_array, selected.
  destruct (bool_decide (type sub = ty)); [|done]. cbn [negb andb].
  destruct (isEmpty (token sub) || isEmpty tok || token_eq (token sub) tok);
    [|done].
  cbn [negb andb]. by destruct (isNull st (receiver sub)).
Qed.

Lemma slots_within_body cur ty tok m sub st p L :
  slots_within p L -> slots_within (send_body_array cur ty tok m sub st p) L.
Proof.
  intros H. rewrite send_body_array_selected.
  destruct (selected st ty tok sub); [|done]. unfold invokeMethod_array.
  destruct (data st (receiver sub)); [|done].
  case_bool_decide; [|done]. by apply slots_within_callback.
Qed.

Lemma stmt_erases_passive s st p : stmt_passive s = true -> stmt_erases s st p = p.
Proof.
  induction s as [l|r|l body IH]; cbn [stmt_erases stmt_passive]; intros H;
    [done|done|].
  case_bool_decide; [by apply IH|done].
Qed.

Lemma callback_erases_passive cb m : forall st p,
  cb_passive cb = true -> callback_erases cb m st p = p.
Proof.
  unfold cb_passive.
  induction cb as [|s cb IH]; intros st p; cbn [callback_erases forallb]; [done|].
  rewrite andb_true_iff. intros [Hs Hcb].
  rewrite stmt_erases_passive by done. by apply IH.
Qed.

Lemma send_body_array_passive cur ty tok m sub st p :
  cb_passive (callback sub) = true -> send_body_array cur ty tok m sub st p = p.
Proof.
  intros H. rewrite send_body_array_selected.
  destruct (selected st ty tok sub); [|done]. unfold invokeMethod_array.
  destruct (data st (receiver sub)); [|done].
  case_bool_decide; [|done]. by apply callback_erases_passive.
Qed.

(** The erase loop walks past the entries its condition rejects. *)
Lemma erase_loop_array_skip c : forall n j p,
  (forall i, j <= i < j + n ->
     exists nd, d_array p (d_begin p + i) = Some nd /\ c (element nd) = false) ->
  erase_loop_array c n j p = p.
Proof.
  induction n as [|n IH]; intros j p H; cbn [erase_loop_array]; [done|].
  destruct (H j) as (nd & -> & ->); [lia|].
  apply IH. intros i Hi. apply H. lia.
Qed.

(** With one entry to erase, at index [k], the erase loop of [Unregister]
    comes down to [erase] at that index. *)
Lemma erase_loop_array_one c k nd r : forall d j p,
  j + d = k ->
  (forall i, j <= i < k ->
     exists nd', d_array p (d_begin p + i) = Some nd' /\ c (element nd') = false) ->
  d_array p (d_begin p + k) = Some nd ->
  c (element nd) = true ->
  (forall i, k <= i < k + r ->
     exists nd', d_array (QList_erase k p) (d_begin (QList_erase k p) + i) = Some nd'
                 /\ c (element nd') = false) ->
  erase_loop_array c (d + S r) j p = QList_erase k p.
Proof.
  induction d as [|d IH]; intros j p Hj Hpre Hk Hc Hpost.
  - replace j with k in * by lia. cbn [plus erase_loop_array].
    rewrite Hk, Hc. by apply erase_loop_array_skip.
  - cbn [plus erase_loop_array].
    destruct (Hpre j) as (nd' & -> & ->); [lia|].
    apply IH; [lia| |done|done|done].
    intros i Hi. apply Hpre. lia.
Qed.

Lemma fresh_middle pre e post :
  d_array (fresh (pre ++ e :: post)) (length pre) = Some (mkNode (length pre) e).
Proof. cbn. by rewrite list_lookup_middle. Qed.

(** The array once the entry of index [length pre] has been erased, the
    entries before it being no more than those behind: [remove] has moved
    the front, and the slots behind the erased one are as they were. *)
Lemma QList_erase_fresh_front pre e post :
  length pre <= length post ->
  let p := QList_erase (length pre) (fresh (pre ++ e :: post)) in
  d_begin p = 1
  /\ deleted p = [length pre]
  /\ forall i, d_array p (S (length pre) + i) = mkNode (S (length pre) + i) <$> post !! i.
Proof.
  intros Hle. cbn zeta. unfold QList_erase.
  replace (d_begin (fresh (pre ++ e :: post)) + length pre) with (length pre) by done.
  rewrite fresh_middle. unfold QListData_remove.
  cbn [d_begin d_end d_array deleted fresh node_id].
  rewrite Nat.add_0_r, length_app. cbn [length].
  destruct (Nat.ltb_spec (length pre - 0) (length pre + S (length post) - length pre));
    [|lia].
  cbn [d_begin d_end d_array deleted]. repeat split.
  intros i. rewrite bool_decide_eq_false_2 by lia.
  rewrite lookup_app_r by lia.
  by replace (S (length pre) + i - length pre) with (S i) by lia.
Qed.

(** The same with more entries before the erased one than behind: [remove]
    has moved the tail one slot down, and the last slot keeps the pointer it
    held. *)
Lemma QList_erase_fresh_back pre e post :
  length post < length pre ->
  let p := QList_erase (length pre) (fresh (pre ++ e :: post)) in
  d_begin p = 0
  /\ deleted p = [length pre]
  /\ (forall i, i < length post ->
        d_array p (length pre + i) = mkNode (S (length pre) + i) <$> post !! i)
  /\ (forall i, length post <= i ->
        d_array p (length pre + i)
        = mkNode (length pre + i) <$> (e :: post) !! i).
Proof.
  intros Hlt. cbn zeta. unfold QList_erase.
  replace (d_begin (fresh (pre ++ e :: post)) + length pre) with (length pre) by done.
  rewrite fresh_middle. unfold QListData_remove.
  cbn [d_begin d_end d_array deleted fresh node_id].
  rewrite Nat.add_0_r, length_app. cbn [length].
  destruct (Nat.ltb_spec (length pre - 0) (length pre + S (length post) - length pre));
    [lia|].
  cbn [d_begin d_end d_array deleted]. repeat split.
  - intros i Hi. rewrite bool_decide_eq_true_2 by lia.
    rewrite lookup_app_r by lia.
    replace (length pre + i + 1 - length pre) with (S i) by lia.
    change ((e :: post) !! S i) with (post !! i).
    by replace (length pre + i + 1) with (S (length pre) + i) by lia.
  - intros i Hi. rewrite bool_decide_eq_false_2 by lia.
    rewrite lookup_app_r by lia.
    by replace (length pre + i - length pre) with i by lia.
Qed.

(** What the loop of [internalSend] reads behind the slot of an entry that
    has just been erased: the entries that stood behind it, each once, when
    the front was moved; those entries without the first and with the last
    twice, when the tail was moved. *)
Lemma reads_behind_erased pre e post :
  reads (QList_erase (length pre) (fresh (pre ++ e :: post)))
        (S (length pre))
        (if length pre <=? length post then post
         else drop 1 post ++ drop (length post - 1) post).
Proof.
  destruct (Nat.leb_spec (length pre) (length post)) as [Hle|Hlt].
  - destruct (QList_erase_fresh_front pre e post Hle) as (_ & Hdel & Hslots).
    intros i s Hs. exists (S (length pre) + i). rewrite Hslots, Hs, Hdel.
    split; [done|]. rewrite list_elem_of_singleton. lia.
  - destruct (QList_erase_fresh_back pre e post Hlt) as (_ & Hdel & Hin & Hlast).
    intros i s Hs. rewrite Hdel.
    destruct (decide (i < length post - 1)) as [Hi|Hi].
    + rewrite lookup_app_l in Hs by (rewrite length_drop; lia).
      rewrite lookup_drop in Hs. change (1 + i) with (S i) in Hs.
      exists (S (length pre) + S i). split.
      * replace (S (length pre) + i) with (length pre + S i) by lia.
        rewrite Hin by lia. by rewrite Hs.
      * rewrite list_elem_of_singleton. lia.
    + rewrite lookup_app_r in Hs by (rewrite length_drop; lia).
      rewrite length_drop, lookup_drop in Hs.
      pose proof (lookup_lt_Some _ _ _ Hs) as Hb.
      assert (i = length post - 1) as -> by lia.
      exists (length pre + length post). split.
      * replace (S (length pre) + (length post - 1))
          with (length pre + length post) by lia.
        rewrite Hlast by lia.
        destruct (length post) as [|n] eqn:E; [lia|].
        change ((e :: post) !! S n) with (post !! n).
        replace (S n - 1 + (S n - 1 - (S n - 1))) with n in Hs by lia.
        by rewrite Hs.
      * rewrite list_elem_of_singleton. lia.
Qed.

(** The erase loop of [Unregister(o)], run from a callback on the array the
    send started on, when one entry is for [o]. *)
Lemma erase_loop_array_fresh c pre e post :
  Forall (fun s => c s = false) (pre ++ post) ->
  c e = true ->
  erase_loop_array c (size (fresh (pre ++ e :: post))) 0 (fresh (pre ++ e :: post))
  = QList_erase (length pre) (fresh (pre ++ e :: post)).
Proof.
  intros Hc He. apply Forall_app in Hc as [Hpre Hpost].
  rewrite Forall_forall in Hpre, Hpost.
  replace (size (fresh (pre ++ e :: post))) with (length pre + S (length post)).
  2:{ unfold size. cbn [d_end d_begin fresh]. rewrite length_app. cbn [length]. lia. }
  eapply erase_loop_array_one; [lia| |apply fresh_middle|done|].
  - intros i Hi. cbn [d_begin d_array fresh plus].
    destruct (lookup_lt_is_Some_2 pre i) as [s Hs]; [lia|].
    rewrite (lookup_app_l_Some _ _ _ _ Hs). eexists. split; [done|].
    apply Hpre. by eapply list_elem_of_lookup_2.
  - intros i Hi.
    destruct (lookup_lt_is_Some_2 post (i - length pre)) as [s Hs]; [lia|].
    exists (mkNode (S i) s). split.
    2:{ apply Hpost. by eapply list_elem_of_lookup_2. }
    destruct (Nat.leb_spec (length pre) (length post)) as [Hle|Hlt].
    + destruct (QList_erase_fresh_front pre e post Hle) as (-> & _ & Hslots).
      replace (1 + i) with (S (length pre) + (i - length pre)) by lia.
      rewrite Hslots, Hs. cbn. do 2 f_equal. lia.
    + destruct (QList_erase_fresh_back pre e post Hlt) as (-> & _ & Hin & _).
      replace (0 + i) with (length pre + (i - length pre)) by lia.
      rewrite Hin by lia. rewrite Hs. cbn. do 2 f_equal. lia.
Qed.

(** ** The array and the list

    The erase loops are written twice: on the list, as [erase_loop], and on
    the array of the [QList], as [erase_loop_array]. They agree: whatever
    side [remove] moves, the live slots of the array spell the list that
    [erase_loop] leaves. *)

Lemma spells_fresh l : spells (fresh l) l.
Proof.
  split; [done|]. intros i Hi. cbn [d_begin d_array fresh plus].
  by destruct (l !! i).
Qed.

Lemma spells_remove i p L :
  spells p L -> i < length L -> spells (QListData_remove i p) (delete i L).
Proof.
  intros [Hend Hslots] Hi. unfold QListData_remove. cbn zeta.
  assert (length (delete i L) = length L - 1) as Hlen.
  { apply length_delete. by apply lookup_lt_is_Some_2. }
  destruct (Nat.ltb_spec (i + d_begin p - d_begin p) (d_end p - (i + d_begin p)));
    split; cbn [d_begin d_end d_array]; rewrite Hlen; try lia.
  - intros j Hj. case_bool_decide.
    + rewrite list_lookup_delete_lt by lia.
      replace (S (d_begin p) + j - 1) with (d_begin p + j) by lia.
      apply Hslots. lia.
    + rewrite list_lookup_delete_ge by lia.
      replace (S (d_begin p) + j) with (d_begin p + S j) by lia.
      apply Hslots. lia.
  - intros j Hj. case_bool_decide.
    + rewrite list_lookup_delete_ge by lia.
      replace (d_begin p + j + 1) with (d_begin p + S j) by lia.
      apply Hslots. lia.
    + rewrite list_lookup_delete_lt by lia. apply Hslots. lia.
Qed.

Lemma spells_erase i p L :
  spells p L -> i < length L -> spells (QList_erase i p) (delete i L).
Proof.
  intros Hp Hi. unfold QList_erase.
  destruct (d_array p (d_begin p + i)) as [nd|] eqn:Hnd.
  - apply spells_remove; [|done]. exact Hp.
  - destruct Hp as [_ Hslots]. specialize (Hslots i Hi).
    rewrite Hnd in Hslots. apply lookup_lt_is_Some_2 in Hi as [s Hs].
    rewrite Hs in Hslots. discriminate Hslots.
Qed.

Lemma spells_erase_loop_array c l2 : forall l1 p,
  spells p (l1 ++ l2) ->
  spells (erase_loop_array c (length l2) (length l1) p) (l1 ++ erase_loop c l2).
Proof.
  induction l2 as [|s l2 IH]; intros l1 p Hp; cbn [length erase_loop_array erase_loop];
    [done|].
  assert (length l1 < length (l1 ++ s :: l2)) as Hlt
    by (rewrite length_app; cbn [length]; lia).
  pose proof (proj2 Hp (length l1) Hlt) as Hslot.
  rewrite list_lookup_middle in Hslot by done.
  destruct (d_array p (d_begin p + length l1)) as [nd|]; [|done].
  injection Hslot as Hel. rewrite Hel. destruct (c s).
  - apply IH. rewrite <- (delete_middle l1 l2 s). by apply spells_erase.
  - specialize (IH (l1 ++ [s]) p).
    rewrite length_app, Nat.add_1_r, <- !app_assoc in IH. by apply IH.
Qed.

Lemma spells_stmt s m st p :
  spells p (subscriptions st) ->
  spells (stmt_erases s st p) (subscriptions (run_stmt s m st)).
Proof.
  intros Hp. induction s as [l|r|l body IH]; cbn [stmt_erases run_stmt]; [done| |].
  - destruct r as [o|]; [|done]. cbn [Unregister subscriptions set_subscriptions].
    replace (size p) with (length (subscriptions st))
      by (unfold size; destruct Hp as [-> _]; lia).
    by apply (spells_erase_loop_array _ (subscriptions st) []).
  - by case_bool_decide.
Qed.

Lemma spells_callback cb m : forall st p,
  spells p (subscriptions st) ->
  spells (callback_erases cb m st p) (subscriptions (run_callback cb m st)).
Proof.
  induction cb as [|s cb IH]; intros st p Hp;
    cbn [callback_erases run_callback]; [done|].
  apply IH. by apply spells_stmt.
Qed.

Lemma spells_body cur ty tok m sub st p :
  spells p (subscriptions st) ->
  spells (send_body_array cur ty tok m sub st p)
         (subscriptions (send_body cur ty tok m sub st)).
Proof.
  intros Hp. rewrite send_body_selected, send_body_array_selected.
  destruct (selected st ty tok sub); [|done].
  unfold invokeMethod, invokeMethod_array.
  destruct (data st (receiver sub)); [|done]. cbn zeta.
  case_bool_decide; [|done]. by apply spells_callback.
Qed.

Lemma spells_send_loop cur ty tok m n : forall it st p,
  spells p (subscriptions st) ->
  spells (send_loop n it cur ty tok m st p).2
         (subscriptions (state_of (send_loop n it cur ty tok m st p).1)).
Proof.
  induction n as [|n IH]; intros it st p Hp; cbn [send_loop]; [done|].
  destruct (d_array p it) as [nd|]; [|done].
  case_bool_decide; [done|]. apply IH. by apply spells_body.
Qed.

(** ** The delivery loop *)

(** What every run of the loop guarantees, whatever the callbacks do and
    however it ends: objects are neither destroyed nor moved, the registry
    only shrinks, and each new call of [invokeMethod] carries the message
    sent, for an entry the array points to that passed the three tests. *)
Lemma send_loop_sound L n it cur ty tok m st p :
  slots_within p L ->
  let st' := state_of (send_loop n it cur ty tok m st p).1 in
  destroyed st' = destroyed st
  /\ affinity st' = affinity st
  /\ subscriptions st' `sublist_of` subscriptions st
  /\ exists extra,
       dispatched st' = dispatched st ++ extra
       /\ Forall (fun d => d.2 = m /\ d.1 ∈ L
                           /\ selected st ty tok d.1 = true) extra.
Proof.
  intros Hin. cbn zeta. revert it st p Hin.
  induction n as [|n IH]; intros it st p Hin; cbn [send_loop].
  { repeat split; try done. exists []. by rewrite app_nil_r. }
  destruct (d_array p it) as [nd|] eqn:Hnd; cbn [state_of fst].
  2:{ repeat split; try done. exists []. by rewrite app_nil_r. }
  case_bool_decide; cbn [state_of fst].
  { repeat split; try done. exists []. by rewrite app_nil_r. }
  destruct (send_body_frame cur ty tok m (element nd) st) as (Hd & Ha & Hs & Hx).
  destruct (IH (S it) (send_body cur ty tok m (element nd) st)
              (send_body_array cur ty tok m (element nd) st p))
    as (Hd' & Ha' & Hs' & extra & Hx' & Hall).
  { by apply slots_within_body. }
  repeat split; try congruence; [by etrans|].
  exists ((if selected st ty tok (element nd) then [(element nd, m)] else [])
          ++ extra).
  split; [by rewrite Hx', Hx, app_assoc|].
  apply Forall_app. split.
  - destruct (selected st ty tok (element nd)) eqn:E; [|done].
    apply Forall_singleton. repeat split; [|done]. by eapply Hin.
  - eapply Forall_impl; [exact Hall|].
    intros d (? & ? & Hsel). repeat split; [done|done|].
    by rewrite <- (selected_ext st _ _ _ _ Hd).
Qed.

Lemma send_loop_split n1 n2 it cur ty tok m st p :
  send_loop (n1 + n2) it cur ty tok m st p =
  match send_loop n1 it cur ty tok m st p with
  | (Done st', p') => send_loop n2 (it + n1) cur ty tok m st' p'
  | (InvalidIterator st', p') => (InvalidIterator st', p')
  end.
Proof.
  revert it st p. induction n1 as [|n1 IH]; intros it st p; cbn [send_loop plus].
  - by rewrite Nat.add_0_r.
  - destruct (d_array p it) as [nd|]; [|done].
    case_bool_decide; [done|].
    rewrite IH. by replace (S it + n1) with (it + S n1) by lia.
Qed.

(** A stretch of the array whose entries have callbacks that leave the
    registry alone is walked to its end: the registry and the array are
    unchanged, and the calls made are those for the selected entries of the
    stretch, in order. *)
Lemma send_loop_passive seg : forall it cur ty tok m st p,
  reads p it seg ->
  passive seg ->
  exists st',
    send_loop (length seg) it cur ty tok m st p = (Done st', p)
    /\ subscriptions st' = subscriptions st
    /\ destroyed st' = destroyed st
    /\ affinity st' = affinity st
    /\ dispatched st' =
       dispatched st
       ++ ((fun s => (s, m)) <$> filter (fun s => selected st ty tok s = true) seg)
    /\ (forall l, Forall (fun s => cb_writes l (callback s) = false) seg ->
                  received l st' = received l st)
    /\ exists q,
         posted st' = posted st ++ q
         /\ Forall (fun k => task_sub k ∈ seg
                             /\ registered_for (target k) (task_sub k)
                             /\ task_payload k = m) q.
Proof.
  induction seg as [|sub seg IH]; intros it cur ty tok m st p Hreads Hp.
  { exists st. cbn. rewrite app_nil_r. repeat split; try done.
    exists []. by rewrite app_nil_r. }
  apply Forall_cons in Hp as [Hsub Hseg].
  apply reads_cons in Hreads as ((id & Hid & Hdel) & Hreads).
  cbn [length send_loop]. rewrite Hid. cbn [node_id element].
  rewrite bool_decide_eq_false_2 by done.
  rewrite send_body_array_passive by done.
  set (st1 := send_body cur ty tok m sub st).
  assert (subscriptions st1 = subscriptions st
          /\ forall l, cb_writes l (callback sub) = false ->
                       received l st1 = received l st) as [Hs1 Hl1].
  { subst st1. rewrite send_body_selected.
    destruct (selected st ty tok sub) eqn:E; [|done].
    apply selected_spec in E as (_ & _ & Hn). split.
    - by apply invokeMethod_passive.
    - intros l Hw. by apply invokeMethod_received. }
  destruct (send_body_frame cur ty tok m sub st) as (Hd1 & Ha1 & _ & Hx1).
  fold st1 in Hd1, Ha1, Hx1.
  destruct (send_body_posted cur ty tok m sub st) as (q1 & Hq1 & Hall1).
  fold st1 in Hq1.
  destruct (IH (S it) cur ty tok m st1 p Hreads Hseg) as
    (st' & Hrun & Hs' & Hd' & Ha' & Hx' & Hl' & q & Hq & Hall).
  exists st'. split; [done|]. split; [congruence|]. split; [congruence|].
  split; [congruence|]. split; [|split].
  - rewrite Hx', Hx1, <- app_assoc. f_equal.
    rewrite (list_filter_iff _ (fun s => selected st ty tok s = true)).
    2:{ intros s. by rewrite (selected_ext st st1 _ _ _ Hd1). }
    destruct (selected st ty tok sub) eqn:E.
    + by rewrite filter_cons_True.
    + rewrite filter_cons_False by congruence. done.
  - intros l Hw. apply Forall_cons in Hw as [Hw1 Hw2].
    rewrite Hl' by done. by apply Hl1.
  - exists (q1 ++ q). split; [by rewrite Hq, Hq1, app_assoc|].
    apply Forall_app. split.
    + eapply Forall_impl; [exact Hall1|].
      intros k (-> & ? & ?). repeat split; [left|done|done].
    + eapply Forall_impl; [exact Hall|].
      intros k (? & ? & ?). repeat split; [by right|done|done].
Qed.

Lemma deliveries_app st st' x :
  dispatched st' = dispatched st ++ x -> deliveries st st' = x.
Proof. intros H. unfold deliveries. by rewrite H, drop_app_length. Qed.

(** With no callback reaching the registry, [internalSend] ends normally,
    changes nothing in the registry, and calls [invokeMethod] once for each
    selected entry, in list order. *)
Lemma internalSend_passive cur ty tok m st :
  passive (subscriptions st) ->
  exists st',
    internalSend cur ty tok m st = Done st'
    /\ subscriptions st' = subscriptions st
    /\ destroyed st' = destroyed st
    /\ affinity st' = affinity st
    /\ dispatched st' = dispatched st ++ calls st ty tok m
    /\ (forall l, Forall (fun s => cb_writes l (callback s) = false)
                         (subscriptions st) ->
                  received l st' = received l st)
    /\ exists q, posted st' = posted st ++ q
                 /\ Forall (fun k => task_sub k ∈ subscriptions st) q.
Proof.
  intros Hp.
  destruct (send_loop_passive (subscriptions st) 0 cur ty tok m st
              (fresh (subscriptions st)))
    as (st' & Hrun & Hs & Hd & Ha & Hx & Hl & q & Hq & Hall); [|done|].
  { pose proof (reads_fresh [] (subscriptions st) []) as H.
    by rewrite app_nil_r in H. }
  exists st'. unfold internalSend. rewrite Hrun. repeat split; try done.
  exists q. split; [done|].
  eapply Forall_impl; [exact Hall|]. by intros k (? & _).
Qed.

Lemma calls_ext st st' ty tok m :
  subscriptions st' = subscriptions st -> destroyed st' = destroyed st ->
  calls st' ty tok m = calls st ty tok m.
Proof.
  intros Hs Hd. unfold calls. rewrite Hs. f_equal.
  apply list_filter_iff. intros s. by rewrite (selected_ext st st' _ _ _ Hd).
Qed.

(** The same for a run of sends: each message in turn reaches the selected
    entries. *)
Lemma send_all_passive cur ty tok ms : forall st,
  passive (subscriptions st) ->
  exists st',
    send_all cur ty tok ms st = Done st'
    /\ subscriptions st' = subscriptions st
    /\ destroyed st' = destroyed st
    /\ affinity st' = affinity st
    /\ dispatched st' = dispatched st ++ concat (calls st ty tok <$> ms)
    /\ (forall l, Forall (fun s => cb_writes l (callback s) = false)
                         (subscriptions st) ->
                  received l st' = received l st)
    /\ exists q, posted st' = posted st ++ q
                 /\ Forall (fun k => task_sub k ∈ subscriptions st) q.
Proof.
  induction ms as [|m ms IH]; intros st Hp; cbn [send_all].
  { exists st. cbn. rewrite app_nil_r. repeat split; try done.
    exists []. by rewrite app_nil_r. }
  destruct (internalSend_passive cur ty tok m st Hp)
    as (st1 & -> & Hs1 & Hd1 & Ha1 & Hx1 & Hl1 & q1 & Hq1 & Hall1).
  destruct (IH st1) as (st' & Hrun & Hs & Hd & Ha & Hx & Hl & q & Hq & Hall);
    [by rewrite Hs1|].
  exists st'. split; [done|]. split; [congruence|]. split; [congruence|].
  split; [congruence|]. split; [|split].
  - rewrite Hx, Hx1, <- app_assoc. cbn [fmap list_fmap concat]. do 2 f_equal.
    f_equal. apply list_fmap_ext. intros _ m' _. by apply calls_ext.
  - intros l Hw. rewrite Hl by (by rewrite Hs1). by apply Hl1.
  - exists (q1 ++ q). split; [by rewrite Hq, Hq1, app_assoc|].
    apply Forall_app. split; [done|]. by rewrite Hs1 in Hall.
Qed.

Lemma internalSend_sound cur ty tok m st :
  let st' := state_of (internalSend cur ty tok m st) in
  destroyed st' = destroyed st
  /\ affinity st' = affinity st
  /\ subscriptions st' `sublist_of` subscriptions st
  /\ Forall (fun d => d.2 = m /\ d.1 ∈ subscriptions st
                      /\ selected st ty tok d.1 = true) (deliveries st st').
Proof.
  cbn zeta. unfold internalSend.
  destruct (send_loop_sound (subscriptions st) (length (subscriptions st)) 0
              cur ty tok m st (fresh (subscriptions st)))
    as (Hd & Ha & Hs & extra & Hx & Hall); [apply slots_within_fresh|].
  repeat split; try done.
  unfold deliveries. by rewrite Hx, drop_app_length.
Qed.

(** Every delivery of a send passed the three tests of the loop body. *)
Lemma delivery_selected cur ty tok m st sub m' :
  (sub, m') ∈ deliveries st (state_of (internalSend cur ty tok m st)) ->
  m' = m
  /\ sub ∈ subscriptions st
  /\ type sub = ty
  /\ (isEmpty (token sub) = true \/ isEmpty tok = true \/ token sub = tok)
  /\ isNull st (receiver sub) = false.
Proof.
  intros Hin.
  destruct (internalSend_sound cur ty tok m st) as (_ & _ & _ & Hall).
  rewrite Forall_forall in Hall.
  destruct (Hall _ Hin) as (? & ? & Hsel).
  apply selected_spec in Hsel as (? & ? & ?). done.
Qed.

Lemma internalSend_grows cur ty tok m st :
  exists x,
    dispatched (state_of (internalSend cur ty tok m st)) = dispatched st ++ x
    /\ x.*2 = replicate (length x) m.
Proof.
  destruct (send_loop_sound (subscriptions st) (length (subscriptions st)) 0
              cur ty tok m st (fresh (subscriptions st)))
    as (_ & _ & _ & x & Hx & Hall); [apply slots_within_fresh|].
  exists x. split; [exact Hx|]. clear Hx.
  induction Hall as [|d x (Hd & _) _ IH]; [done|].
  cbn [fmap list_fmap length replicate]. by rewrite Hd, IH.
Qed.

(** Messages are delivered in sending order: a run of sends delivers some
    copies of the first message, then some of the second, and so on,
    whatever the callbacks do and however the run ends. *)
Lemma send_all_in_order cur ty tok ms : forall st,
  exists ks x,
    length ks = length ms
    /\ dispatched (state_of (send_all cur ty tok ms st)) = dispatched st ++ x
    /\ x.*2 = concat (zip_with replicate ks ms).
Proof.
  induction ms as [|m ms IH]; intros st; cbn [send_all].
  { exists [], []. by rewrite app_nil_r. }
  destruct (internalSend_grows cur ty tok m st) as (x1 & Hx1 & Hm1).
  destruct (internalSend cur ty tok m st) as [st1|st1]; cbn [state_of] in *.
  - destruct (IH st1) as (ks & x & Hlen & Hx & Hm).
    exists (length x1 :: ks), (x1 ++ x). cbn [length zip_with concat].
    split; [by rewrite Hlen|]. split; [by rewrite Hx, Hx1, app_assoc|].
    by rewrite fmap_app, Hm1, Hm.
  - exists (length x1 :: replicate (length ms) 0), (x1 ++ []).
    cbn [length zip_with concat]. rewrite length_replicate.
    split; [done|]. split; [by rewrite app_nil_r|].
    rewrite fmap_app, Hm1. f_equal.
    clear. induction ms as [|m' ms IH]; [done|]. exact IH.
Qed.

(** ** The test suite, replayed on the model *)

Example test_register_member_and_send :
  received 1 (Send MyMessageT hello noToken (RegisterMember noToken idle))
  = [hello].
Proof. reflexivity. Qed.

Example test_register_with_token_and_send :
  received 1 (Send MyMessageT second beta
                (Send MyMessageT first alpha (RegisterMember alpha idle)))
  = [first].
Proof. reflexivity. Qed.

Example test_unregister_by_type_and_token :
  received 1
    (Send MyMessageT second beta
       (Send MyMessageT first alpha
          (UnregisterT MyMessageT (Some memberReceiver) alpha
             (RegisterMember beta (RegisterMember alpha idle)))))
  = [second].
Proof. reflexivity. Qed.

Example test_unregister_type_all_tokens :
  received 1
    (Send MyMessageT second beta
       (Send MyMessageT first alpha
          (UnregisterT MyMessageT (Some memberReceiver) noToken
             (RegisterMember beta (RegisterMember alpha idle)))))
  = [].
Proof. reflexivity. Qed.

Example test_type_isolation :
  received 1 (Send AnotherMessageT (VAnotherMessage 5 "x"%string) noToken
                (RegisterMember noToken idle))
  = [].
Proof. reflexivity. Qed.

Example test_empty_token_receives_all :
  received 1 (Send MyMessageT second beta
                (Send MyMessageT first alpha (RegisterMember noToken idle)))
  = [first; second].
Proof. reflexivity. Qed.

Example test_send_then_immediate_unregister :
  received 1
    (Send MyMessageT second noToken
       (Unregister (Some memberReceiver)
          (Send MyMessageT first noToken (RegisterMember noToken idle))))
  = [first].
Proof. reflexivity. Qed.

Example test_self_unregister_in_callback :
  received 2 (Send MyMessageT second noToken
                (Send MyMessageT first noToken (bus [selfEntry])))
  = [first].
Proof. reflexivity. Qed.

Example test_async_dispatch_to_other_thread :
  let st := Send MyMessageT hello noToken (busWithWorker [otherEntry]) in
  received 4 st = []
  /\ posted st = [mkTask otherReceiver otherEntry hello]
  /\ received 4 (processEvents 1 st) = [hello]
  /\ posted (processEvents 1 st) = [].
Proof. cbn zeta. by vm_compute. Qed.

(** ** Unregistering inside a callback, on small registries *)

(** Erasing the first slot only advances [begin()]: the entry behind the
    erased one is where the iterator goes next. *)
Example self_unregister_first_of_two :
  let st := bus [selfEntry; otherEntry] in
  exists st',
    internalSend 0 MyMessageT noToken first st = Done st'
    /\ deliveries st st' = [(selfEntry, first); (otherEntry, first)]
    /\ subscriptions st' = [otherEntry].
Proof. cbn zeta. eexists. split; [vm_compute; reflexivity|]. by vm_compute. Qed.

Example self_unregister_first_of_three :
  let st := bus [selfEntry; otherEntry; memberEntry noToken] in
  exists st',
    internalSend 0 MyMessageT noToken first st = Done st'
    /\ deliveries st st'
       = [(selfEntry, first); (otherEntry, first); (memberEntry noToken, first)]
    /\ subscriptions st' = [otherEntry; memberEntry noToken].
Proof. cbn zeta. eexists. split; [vm_compute; reflexivity|]. by vm_compute. Qed.

(** One entry before and one behind: the front is moved. *)
Example self_unregister_second_of_three :
  let st := bus [otherEntry; selfEntry; memberEntry noToken] in
  exists st',
    internalSend 0 MyMessageT noToken first st = Done st'
    /\ deliveries st st'
       = [(otherEntry, first); (selfEntry, first); (memberEntry noToken, first)]
    /\ subscriptions st' = [otherEntry; memberEntry noToken].
Proof. cbn zeta. eexists. split; [vm_compute; reflexivity|]. by vm_compute. Qed.

(** Two entries before and one behind: the tail is moved, and the last slot
    keeps its pointer; the entry behind is stepped over where it now stands
    and read where it stood. *)
Example self_unregister_third_of_four :
  let st := bus [otherEntry; otherEntry; selfEntry; memberEntry noToken] in
  exists st',
    internalSend 0 MyMessageT noToken first st = Done st'
    /\ deliveries st st'
       = [(otherEntry, first); (otherEntry, first); (selfEntry, first);
          (memberEntry noToken, first)]
    /\ subscriptions st' = [otherEntry; otherEntry; memberEntry noToken].
Proof. cbn zeta. eexists. split; [vm_compute; reflexivity|]. by vm_compute. Qed.

(** * The claims *)

(** ** C1: which entries a send delivers to *)

(** C1, as stated, fails on two inputs. An entry whose type and token match
    is not delivered to when its receiver has been destroyed: the loop skips
    it at [if (sub.receiver.isNull()) continue;]. And an entry whose type and
    token match and whose receiver lives is not delivered to when the
    callback of the entry right before it unregisters that earlier entry and
    fewer entries stand behind the erased one than before it: [remove] then
    moves the tail of the array one slot down, under the iterator of the
    loop, which steps over the entry. Here the fourth of six entries
    unregisters itself; the fifth is stepped over, the sixth is served
    twice, and the send ends normally. *)
Lemma C1_matching_entry_not_delivered :
  (let st := destroy ephemeral (bus [ephemeralEntry]) in
   ephemeralEntry ∈ subscriptions st
   /\ type ephemeralEntry = MyMessageT
   /\ isEmpty (token ephemeralEntry) = true
   /\ deliveries st (state_of (internalSend 0 MyMessageT noToken hello st)) = [])
  /\
  (let st := bus [otherEntry; otherEntry; otherEntry; selfEntry;
                  memberEntry noToken; ephemeralEntry] in
   memberEntry noToken ∈ subscriptions st
   /\ type (memberEntry noToken) = MyMessageT
   /\ isEmpty (token (memberEntry noToken)) = true
   /\ isNull st (receiver (memberEntry noToken)) = false
   /\ exists st',
        internalSend 0 MyMessageT noToken hello st = Done st'
        /\ deliveries st st'
           = [(otherEntry, hello); (otherEntry, hello); (otherEntry, hello);
              (selfEntry, hello); (ephemeralEntry, hello);
              (ephemeralEntry, hello)]).
Proof.
  split; cbn zeta.
  - split; [apply list_elem_of_singleton; reflexivity|]. by vm_compute.
  - split; [do 4 right; left|]. do 3 (split; [by vm_compute|]).
    eexists. split; [by vm_compute|]. by vm_compute.
Qed.

(** C1, amended. Every delivery made by [Send(type, token)] carries the
    message sent and goes to an entry of the registry whose type key equals
    the sent one, whose token matches by the either-side-wildcard rule
    (subscription token empty, or send token empty, or the two equal) and
    whose receiver is not null; so a subscription with a specific token never
    receives a send with a different specific token. When no callback of the
    registry unregisters, the converse holds: an entry is delivered to if and
    only if these three conditions hold. *)
Theorem send_delivers_to_selected_entries cur ty tok m st :
  let st' := state_of (internalSend cur ty tok m st) in
  (forall sub m', (sub, m') ∈ deliveries st st' ->
     m' = m
     /\ sub ∈ subscriptions st
     /\ type sub = ty
     /\ (isEmpty (token sub) = true \/ isEmpty tok = true \/ token sub = tok)
     /\ isNull st (receiver sub) = false)
  /\ (forall sub m', (sub, m') ∈ deliveries st st' ->
        isEmpty (token sub) = false -> isEmpty tok = false -> token sub = tok)
  /\ (passive (subscriptions st) ->
      forall sub, sub ∈ subscriptions st ->
        ((sub, m) ∈ deliveries st st'
         <-> type sub = ty
             /\ (isEmpty (token sub) = true \/ isEmpty tok = true
                 \/ token sub = tok)
             /\ isNull st (receiver sub) = false)).
Proof.
  cbn zeta.
  pose proof (delivery_selected cur ty tok m st) as Honly.
  split; [exact Honly|]. split.
  - intros sub m' Hin He Ht.
    destruct (Honly _ _ Hin) as (_ & _ & _ & [?|[?|?]] & _); congruence.
  - intros Hp sub Hsub. split.
    + intros Hin. destruct (Honly _ _ Hin) as (_ & _ & ? & ? & ?). done.
    + intros Hc. apply selected_spec in Hc.
      destruct (internalSend_passive cur ty tok m st Hp)
        as (st' & -> & _ & _ & _ & Hx & _).
      cbn [state_of]. rewrite (deliveries_app _ _ _ Hx).
      unfold calls. apply list_elem_of_fmap. exists sub. split; [done|].
      by apply list_elem_of_filter.
Qed.

(** The scenario of [register_lambda_with_token_and_send], on the member
    receiver: registered with token alpha, it is delivered a send with token
    alpha. *)
Lemma send_delivers_to_selected_entries_witness :
  (memberEntry alpha, hello) ∈
    deliveries (bus [memberEntry alpha])
      (state_of (internalSend 0 MyMessageT alpha hello (bus [memberEntry alpha]))).
Proof.
  apply (proj2 (proj2 (send_delivers_to_selected_entries
                         0 MyMessageT alpha hello (bus [memberEntry alpha])))).
  - repeat constructor.
  - apply list_elem_of_singleton. reflexivity.
  - split; [reflexivity|]. split; [right; right; reflexivity|].
    vm_compute. reflexivity.
Defined.

(** ** C2: registering a null receiver *)

(** C2, as stated, fails: [internalRegister] has no test of its receiver,
    and a null one is appended like any other. *)
Lemma C2_null_receiver_is_appended :
  subscriptions (internalRegister MyMessageT noToken nullptr (onMessage 0) idle)
  = [nullEntry]
  /\ tracked (receiver nullEntry) = nullptr.
Proof. split; reflexivity. Qed.

(** C2, amended. [register] accepts every input, a null receiver included:
    the call appends one entry and changes nothing else. An entry registered
    with a null receiver is inert: its weak pointer is null in every state, no
    send ever delivers to it, and [Cleanup] removes it, leaving the registry
    as [Cleanup] leaves it without that registration. *)
Theorem register_appends_any_receiver ty tok r cb st :
  let st' := internalRegister ty tok r cb st in
  subscriptions st' = subscriptions st ++ [mkSubscription ty tok (mkQPointer r) cb]
  /\ destroyed st' = destroyed st
  /\ dispatched st' = dispatched st
  /\ logs st' = logs st
  /\ (forall st0 ty0 tok0 cb0,
        isNull st0 (receiver (mkSubscription ty0 tok0 (mkQPointer nullptr) cb0)) = true)
  /\ (forall st0 cur ty0 tok0 m sub m',
        (sub, m') ∈ deliveries st0 (state_of (internalSend cur ty0 tok0 m st0)) ->
        tracked (receiver sub) ≠ nullptr)
  /\ subscriptions (Cleanup (internalRegister ty tok nullptr cb st))
     = subscriptions (Cleanup st).
Proof.
  cbn zeta. repeat split.
  - intros st0 cur ty0 tok0 m sub m' Hin.
    destruct (delivery_selected _ _ _ _ _ _ _ Hin) as (_ & _ & _ & _ & Hn).
    apply isNull_false in Hn as (o & Ht & _). congruence.
  - unfold Cleanup, internalRegister. cbn [subscriptions set_subscriptions destroyed].
    rewrite erase_loop_app. cbn [erase_loop].
    replace (isNull _ (receiver (mkSubscription ty tok (mkQPointer nullptr) cb)))
      with true by reflexivity.
    rewrite app_nil_r. apply erase_loop_ext. intros it _. by apply isNull_ext.
Qed.

(** ** C3: a receiver that unregisters itself in its callback *)

(** C3, as stated, fails in its second half: the loop of [internalSend]
    walks the array of the list member itself, not a copy, and an erase made
    in a callback moves entries under its iterator. Here the fourth of six
    entries unregisters itself in its callback; [remove] moves the two
    entries behind it one slot down, so the loop steps over the fifth entry
    and reads the sixth twice, where a loop over a snapshot would have
    delivered once to each of the six. *)
Lemma C3_loop_walks_the_live_list :
  let st := bus [otherEntry; otherEntry; otherEntry; selfEntry;
                 memberEntry noToken; ephemeralEntry] in
  (exists st', internalSend 0 MyMessageT noToken first st = Done st'
               /\ deliveries st st'
                  = [(otherEntry, first); (otherEntry, first); (otherEntry, first);
                     (selfEntry, first); (ephemeralEntry, first);
                     (ephemeralEntry, first)])
  /\ deliveries st (snapshotSend 0 MyMessageT noToken first st)
     = [(otherEntry, first); (otherEntry, first); (otherEntry, first);
        (selfEntry, first); (memberEntry noToken, first);
        (ephemeralEntry, first)].
Proof.
  cbn zeta. split; [|by vm_compute].
  eexists. split; [vm_compute; reflexivity|by vm_compute].
Qed.

Lemma erase_loop_one pre e post (c : Subscription -> bool) :
  Forall (fun s => c s = false) (pre ++ post) -> c e = true ->
  erase_loop c (pre ++ e :: post) = pre ++ post.
Proof.
  intros Hc He. apply Forall_app in Hc as [Hpre Hpost].
  rewrite erase_loop_app, (erase_loop_none c pre) by done.
  cbn [erase_loop]. by rewrite He, (erase_loop_none c post).
Qed.

Lemma not_registered_data st o s :
  ¬ registered_for o s -> bool_decide (data st (receiver s) = Some o) = false.
Proof.
  intros Hn. apply bool_decide_eq_false. intros Hd.
  apply data_Some in Hd as [Ht _]. by apply Hn.
Qed.

Lemma filter_none {A} (P : A -> Prop) `{!forall x, Decision (P x)} (l : list A) :
  Forall (fun x => ¬ P x) l -> filter P l = [].
Proof.
  induction 1 as [|x l Hx _ IH]; [done|].
  by rewrite filter_cons_False.
Qed.

Lemma filter_registered_calls o st ty tok m :
  Forall (fun s => ¬ registered_for o s) (subscriptions st) ->
  filter (fun d => registered_for o d.1) (calls st ty tok m) = [].
Proof.
  intros Hn. unfold calls.
  apply filter_none, Forall_forall. intros d Hd.
  apply list_elem_of_fmap in Hd as (s & -> & Hs).
  apply list_elem_of_filter in Hs as [_ Hs].
  rewrite Forall_forall in Hn. by apply Hn.
Qed.

Lemma filter_registered_concat_calls o st ty tok ms :
  Forall (fun s => ¬ registered_for o s) (subscriptions st) ->
  filter (fun d => registered_for o d.1) (concat (calls st ty tok <$> ms)) = [].
Proof.
  intros Hn. induction ms as [|m ms IH]; [done|].
  cbn [fmap list_fmap concat]. rewrite filter_app.
  rewrite (filter_registered_calls o st ty tok m Hn). exact IH.
Qed.

Lemma run_posted_app t q1 q2 : forall st,
  run_posted t (q1 ++ q2) st = run_posted t q2 (run_posted t q1 st).
Proof.
  induction q1 as [|k q1 IH]; intros st; cbn [run_posted app]; [done|].
  by destruct (bool_decide _ && alive st (target k)).
Qed.

Lemma run_posted_frame t q : forall st, callback_frame st (run_posted t q st).
Proof.
  induction q as [|k q IH]; intros st; cbn [run_posted].
  { apply callback_frame_refl. }
  destruct (bool_decide _ && alive st (target k)); [|apply IH].
  eapply callback_frame_trans; [apply run_callback_frame|apply IH].
Qed.

(** Posted invocations whose callbacks neither unregister nor write log [l]
    leave the registry and that log as they are. *)
Lemma run_posted_quiet t l q : forall st,
  Forall (fun k => cb_passive (callback (task_sub k)) = true
                   /\ cb_writes l (callback (task_sub k)) = false) q ->
  subscriptions (run_posted t q st) = subscriptions st
  /\ received l (run_posted t q st) = received l st.
Proof.
  induction q as [|k q IH]; intros st Hq; cbn [run_posted]; [done|].
  apply Forall_cons in Hq as [[Hk1 Hk2] Hq].
  destruct (bool_decide _ && alive st (target k)); [|by apply IH].
  destruct (IH (run_callback (callback (task_sub k)) (task_payload k) st) Hq)
    as [-> ->].
  by rewrite run_callback_passive, run_callback_received.
Qed.

Lemma reads_fresh_behind pre e post :
  reads (fresh (pre ++ e :: post)) (S (length pre)) post.
Proof.
  pose proof (reads_fresh (pre ++ [e]) post []) as H.
  rewrite app_nil_r, <- app_assoc, length_app in H. cbn [app length] in H.
  by replace (length pre + 1) with (S (length pre)) in H by lia.
Qed.

Lemma read_behind_within {A} (k : nat) (post : list A) (s : A) :
  s ∈ (if k <=? length post then post
       else drop 1 post ++ drop (length post - 1) post) ->
  s ∈ post.
Proof.
  destruct (k <=? length post); [done|].
  rewrite elem_of_app. intros [H|H]; eapply elem_of_sublist; try exact H;
    apply sublist_drop.
Qed.

Lemma read_behind_length {A} (k : nat) (post : list A) :
  length (if k <=? length post then post
          else drop 1 post ++ drop (length post - 1) post) = length post.
Proof.
  destruct (k <=? length post); [done|].
  rewrite length_app, !length_drop. destruct post; cbn [length]; lia.
Qed.

(** A receiver registered once, anywhere in the list, with the callback
    that unregisters it on its first message; the other entries have
    callbacks that neither unregister nor write its log. *)
Section SelfUnregister.
Variables (cur : nat) (ty : N) (tok_e tok : MessageToken).
Variables (o : QObject) (l : nat) (pre post : list Subscription).
Hypothesis Hp : passive (pre ++ post).
Hypothesis Ho : Forall (fun s => ¬ registered_for o s) (pre ++ post).
Hypothesis Hw : Forall (fun s => cb_writes l (callback s) = false) (pre ++ post).
Hypothesis Htok : isEmpty tok_e = true \/ isEmpty tok = true \/ tok_e = tok.

Local Abbreviation e := (selfUnregisteringEntry ty tok_e o l).
Local Abbreviation behind :=
  (if length pre <=? length post then post
   else drop 1 post ++ drop (length post - 1) post).
Local Abbreviation calls_for st m seg :=
  ((fun s => (s, m)) <$> filter (fun s => selected st ty tok s = true) seg).

Lemma tasks_of_others_quiet (q : list Task) :
  Forall (fun k => task_sub k ∈ pre ++ post) q ->
  Forall (fun k => cb_passive (callback (task_sub k)) = true
                   /\ cb_writes l (callback (task_sub k)) = false) q.
Proof.
  intros Hq. eapply Forall_impl; [exact Hq|]. intros k Hin.
  unfold passive in Hp. rewrite Forall_forall in Hp, Hw. auto.
Qed.

Lemma calls_of_others x :
  Forall (fun d : Subscription * QVariant => d.1 ∈ pre ++ post) x ->
  filter (fun d => registered_for o d.1) x = [].
Proof.
  intros Hx. apply filter_none. eapply Forall_impl; [exact Hx|].
  intros d Hin. rewrite Forall_forall in Ho. by apply Ho.
Qed.

Lemma calls_for_others st m seg :
  (forall s, s ∈ seg -> s ∈ pre ++ post) ->
  Forall (fun d : Subscription * QVariant => d.1 ∈ pre ++ post) (calls_for st m seg).
Proof.
  intros Hseg. apply Forall_forall. intros d Hin.
  apply list_elem_of_fmap in Hin as (s & -> & Hin).
  apply list_elem_of_filter in Hin as [_ Hin]. by apply Hseg.
Qed.

(** The callback, run in a state where the log is empty: the registry. *)
Lemma self_unregistering_runs m st :
  subscriptions st = pre ++ e :: post ->
  received l st = [] ->
  alive st o = true ->
  let st' := run_callback (selfUnregistering o l) m st in
  subscriptions st' = pre ++ post
  /\ received l st' = [m]
  /\ callback_frame st st'.
Proof.
  intros Hsubs Hlog Hal. cbn zeta. split; [|split].
  - cbn [selfUnregistering run_callback run_stmt].
    rewrite Hlog, bool_decide_eq_true_2 by done.
    cbn [subscriptions add_log Unregister set_subscriptions].
    rewrite Hsubs. apply erase_loop_one.
    + eapply Forall_impl; [exact Ho|]. intros s Hs. cbn beta.
      by apply not_registered_data.
    + apply bool_decide_eq_true_2. by apply data_live.
  - cbn [selfUnregistering run_callback run_stmt].
    rewrite Hlog, bool_decide_eq_true_2 by done.
    rewrite received_add_log_eq.
    replace (received l (Unregister (Some o) st)) with (received l st) by done.
    by rewrite Hlog.
  - apply run_callback_frame.
Qed.

(** The same run: the array under the loop. *)
Lemma self_unregistering_erases m st :
  received l st = [] ->
  alive st o = true ->
  callback_erases (selfUnregistering o l) m st (fresh (pre ++ e :: post))
  = QList_erase (length pre) (fresh (pre ++ e :: post)).
Proof.
  intros Hlog Hal. cbn [selfUnregistering callback_erases stmt_erases].
  rewrite Hlog, bool_decide_eq_true_2 by done.
  apply erase_loop_array_fresh.
  - eapply Forall_impl; [exact Ho|]. intros s Hs. cbn beta.
    by apply not_registered_data.
  - apply bool_decide_eq_true_2. by apply data_live.
Qed.

(** The loop up to the entry: the entries before it are walked, and the
    entry is selected. *)
Lemma self_unregistering_reached m st :
  subscriptions st = pre ++ e :: post ->
  alive st o = true ->
  exists st1,
    send_loop (length pre) 0 cur ty tok m st (fresh (pre ++ e :: post))
    = (Done st1, fresh (pre ++ e :: post))
    /\ selected st1 ty tok e = true
    /\ data st1 (receiver e) = Some o
    /\ subscriptions st1 = subscriptions st
    /\ destroyed st1 = destroyed st
    /\ affinity st1 = affinity st
    /\ received l st1 = received l st
    /\ dispatched st1 = dispatched st ++ calls_for st m pre
    /\ (exists q, posted st1 = posted st ++ q
                  /\ Forall (fun k => task_sub k ∈ pre ++ post) q).
Proof.
  intros Hsubs Hal. apply Forall_app in Hp as [Hpre _].
  destruct (send_loop_passive pre 0 cur ty tok m st (fresh (pre ++ e :: post)))
    as (st1 & Hrun1 & Hs1 & Hd1 & Ha1 & Hx1 & Hl1 & q & Hq & Hall);
    [exact (reads_fresh [] pre (e :: post))|done|].
  assert (data st1 (receiver e) = Some o) as Hdata.
  { apply data_live; [done|]. unfold alive. by rewrite Hd1. }
  exists st1. split; [done|]. split.
  { apply selected_spec. repeat split; [done|].
    apply isNull_false. exists o. split; [done|]. unfold alive. by rewrite Hd1. }
  split; [done|]. split; [done|]. split; [done|]. split; [done|]. split.
  { apply Hl1. by apply Forall_app in Hw as [? _]. }
  split; [done|].
  exists q. split; [done|]. eapply Forall_impl; [exact Hall|].
  intros k (? & _). apply elem_of_app. by left.
Qed.

(** A send to the registry when the receiver lives in the sending thread:
    its callback runs inside the loop, which goes on with the entries it
    reads behind the erased slot. *)
Lemma self_unregistering_send_direct m st :
  subscriptions st = pre ++ e :: post ->
  received l st = [] ->
  alive st o = true ->
  affinity st o = cur ->
  exists st',
    internalSend cur ty tok m st = Done st'
    /\ subscriptions st' = pre ++ post
    /\ received l st' = [m]
    /\ dispatched st' =
       dispatched st ++ calls_for st m pre ++ (e, m) :: calls_for st m behind
    /\ (exists q, posted st' = posted st ++ q
                  /\ Forall (fun k => task_sub k ∈ pre ++ post) q).
Proof.
  intros Hsubs Hlog Hal Hc.
  destruct (self_unregistering_reached m st Hsubs Hal)
    as (st1 & Hrun1 & Hsel & Hdata & Hs1 & Hd1 & Ha1 & Hl1 & Hx1 & q1 & Hq1 & Hall1).
  (* the callback *)
  destruct (self_unregistering_runs m (add_dispatched (e, m) st1))
    as (Hs2 & Hl2 & (Hd2 & Ha2 & Hq2 & Hx2 & _)).
  { transitivity (subscriptions st1); [done|]. by rewrite Hs1, Hsubs. }
  { transitivity (received l st1); [done|]. congruence. }
  { transitivity (alive st1 o); [done|]. unfold alive. by rewrite Hd1. }
  set (st2 := run_callback (selfUnregistering o l) m (add_dispatched (e, m) st1)) in *.
  (* the entries read behind the erased slot *)
  assert (forall s, s ∈ behind -> s ∈ pre ++ post) as Hbehind.
  { intros s Hs. apply elem_of_app. right. by eapply read_behind_within. }
  destruct (send_loop_passive behind (S (length pre)) cur ty tok m st2
              (QList_erase (length pre) (fresh (pre ++ e :: post))))
    as (st' & Hrun3 & Hs3 & Hd3 & Ha3 & Hx3 & Hl3 & q3 & Hq3 & Hall3).
  { apply reads_behind_erased. }
  { apply Forall_forall. intros s Hs. unfold passive in Hp.
    rewrite Forall_forall in Hp. auto. }
  rewrite read_behind_length in Hrun3.
  exists st'. split; [|split; [congruence|split; [|split]]].
  - unfold internalSend. rewrite Hsubs, length_app. cbn [length].
    rewrite send_loop_split, Hrun1. cbn [send_loop plus].
    rewrite fresh_middle. cbn [node_id element].
    rewrite bool_decide_eq_false_2 by apply not_elem_of_nil.
    rewrite send_body_selected, send_body_array_selected, Hsel.
    rewrite (invokeMethod_direct _ _ _ _ o) by congruence.
    unfold invokeMethod_array. rewrite Hdata, bool_decide_eq_true_2 by congruence.
    change (callback e) with (selfUnregistering o l).
    rewrite self_unregistering_erases.
    + fold st2. by rewrite Hrun3.
    + transitivity (received l st1); [done|]. congruence.
    + transitivity (alive st1 o); [done|]. unfold alive. by rewrite Hd1.
  - rewrite Hl3; [done|]. apply Forall_forall. intros s Hs.
    rewrite Forall_forall in Hw. auto.
  - rewrite Hx3, Hx2. cbn [dispatched add_dispatched].
    rewrite Hx1, <- !app_assoc. do 2 f_equal. cbn [app]. do 2 f_equal.
    apply list_filter_iff. intros s.
    rewrite (selected_ext st st2); [done|].
    rewrite Hd2. transitivity (destroyed st1); [done|]. done.
  - exists (q1 ++ q3). split.
    + rewrite Hq3, Hq2. cbn [posted add_dispatched]. by rewrite Hq1, app_assoc.
    + apply Forall_app. split; [done|]. eapply Forall_impl; [exact Hall3|].
      intros k (? & _). auto.
Qed.

(** The same when the receiver lives in another thread: its callback is
    posted, and the loop walks the whole list. *)
Lemma self_unregistering_send_queued m st :
  subscriptions st = pre ++ e :: post ->
  alive st o = true ->
  affinity st o ≠ cur ->
  exists st' q1 q2,
    internalSend cur ty tok m st = Done st'
    /\ subscriptions st' = pre ++ e :: post
    /\ received l st' = received l st
    /\ destroyed st' = destroyed st
    /\ affinity st' = affinity st
    /\ dispatched st' =
       dispatched st ++ calls_for st m pre ++ (e, m) :: calls_for st m post
    /\ posted st' = posted st ++ q1 ++ mkTask o e m :: q2
    /\ Forall (fun k => task_sub k ∈ pre ++ post) (q1 ++ q2).
Proof.
  intros Hsubs Hal Hc.
  destruct (self_unregistering_reached m st Hsubs Hal)
    as (st1 & Hrun1 & Hsel & Hdata & Hs1 & Hd1 & Ha1 & Hl1 & Hx1 & q1 & Hq1 & Hall1).
  set (st2 := set_posted (posted st1 ++ [mkTask o e m]) (add_dispatched (e, m) st1)).
  destruct (send_loop_passive post (S (length pre)) cur ty tok m st2
              (fresh (pre ++ e :: post)))
    as (st' & Hrun3 & Hs3 & Hd3 & Ha3 & Hx3 & Hl3 & q3 & Hq3 & Hall3).
  { apply reads_fresh_behind. }
  { by apply Forall_app in Hp as [_ ?]. }
  exists st', q1, q3.
  split; [|split; [|split; [|split; [|split; [|split; [|split]]]]]].
  - unfold internalSend. rewrite Hsubs, length_app. cbn [length].
    rewrite send_loop_split, Hrun1. cbn [send_loop plus].
    rewrite fresh_middle. cbn [node_id element].
    rewrite bool_decide_eq_false_2 by apply not_elem_of_nil.
    rewrite send_body_selected, send_body_array_selected, Hsel.
    rewrite (invokeMethod_queued _ _ _ _ o) by congruence.
    unfold invokeMethod_array. rewrite Hdata, bool_decide_eq_false_2 by congruence.
    fold st2. by rewrite Hrun3.
  - rewrite Hs3. transitivity (subscriptions st1); [done|]. congruence.
  - rewrite Hl3 by (by apply Forall_app in Hw as [_ ?]).
    transitivity (received l st1); [done|]. congruence.
  - rewrite Hd3. transitivity (destroyed st1); [done|]. congruence.
  - rewrite Ha3. transitivity (affinity st1); [done|]. congruence.
  - rewrite Hx3. cbn [dispatched st2 set_posted add_dispatched].
    rewrite Hx1, <- !app_assoc. do 2 f_equal. cbn [app]. do 2 f_equal.
    apply list_filter_iff. intros s.
    rewrite (selected_ext st st2); [done|].
    transitivity (destroyed st1); [done|]. congruence.
  - rewrite Hq3. cbn [posted st2 set_posted].
    rewrite Hq1, <- !app_assoc. done.
  - apply Forall_app. split; [done|]. eapply Forall_impl; [exact Hall3|].
    intros k (? & _). apply elem_of_app. by right.
Qed.

(** Once the entry is gone, further sends and further runs of the event
    loop bring the receiver nothing. *)
Lemma self_unregistered_stays_silent t ms st :
  subscriptions st = pre ++ post ->
  Forall (fun k => task_sub k ∈ pre ++ post) (posted st) ->
  exists st',
    send_all cur ty tok ms st = Done st'
    /\ subscriptions st' = pre ++ post
    /\ received l st' = received l st
    /\ (exists x, dispatched st' = dispatched st ++ x
                  /\ filter (fun d => registered_for o d.1) x = [])
    /\ received l (processEvents t st') = received l st
    /\ subscriptions (processEvents t st') = pre ++ post.
Proof.
  intros Hsubs Hposted.
  destruct (send_all_passive cur ty tok ms st)
    as (st' & Hrun & Hs & Hd & Ha & Hx & Hl & q & Hq & Hall);
    [by rewrite Hsubs|].
  rewrite Hsubs in Hall.
  exists st'. split; [done|]. split; [congruence|].
  split; [by rewrite Hl by (by rewrite Hsubs)|]. split.
  { eexists. split; [exact Hx|].
    apply filter_registered_concat_calls. by rewrite Hsubs. }
  unfold processEvents.
  destruct (run_posted_quiet t l (posted st')
              (set_posted (filter (fun k => affinity st' (target k) ≠ t)
                                  (posted st')) st'))
    as [Hs' Hl'].
  { apply tasks_of_others_quiet. rewrite Hq. by apply Forall_app. }
  rewrite Hs', Hl'. cbn [subscriptions set_posted].
  split; [|congruence].
  replace (received l (set_posted _ st')) with (received l st') by done.
  by rewrite Hl by (by rewrite Hsubs).
Qed.
End SelfUnregister.

(** C3, amended. Let a receiver be registered once, with the callback that
    unregisters the receiver when its log is empty and then appends the
    message, wherever its entry stands in the list, the other entries
    having callbacks that neither unregister nor write that log. If the
    receiver lives in the sending thread, a matching send followed by any
    sequence of further sends ends normally, the receiver is delivered the
    first message and no later one, and its entry is gone. If it lives in
    another thread, the same holds for the sends made after its event loop
    has run the first callback. The loop walks the live list, not a
    snapshot: what the erase changes is which of the entries behind the
    erased one the first send reaches, not what this receiver gets. *)
Theorem self_unregistering_receiver_gets_first_only
    cur ty tok_e tok o l pre post m1 ms st :
  let e := selfUnregisteringEntry ty tok_e o l in
  subscriptions st = pre ++ e :: post ->
  passive (pre ++ post) ->
  Forall (fun s => ¬ registered_for o s) (pre ++ post) ->
  Forall (fun s => cb_writes l (callback s) = false) (pre ++ post) ->
  received l st = [] ->
  alive st o = true ->
  isEmpty tok_e = true \/ isEmpty tok = true \/ tok_e = tok ->
  (affinity st o = cur ->
   exists st',
     send_all cur ty tok (m1 :: ms) st = Done st'
     /\ received l st' = [m1]
     /\ filter (fun d => registered_for o d.1) (deliveries st st') = [(e, m1)]
     /\ subscriptions st' = pre ++ post)
  /\ (affinity st o ≠ cur -> posted st = [] ->
      exists st1 st',
        internalSend cur ty tok m1 st = Done st1
        /\ received l st1 = []
        /\ send_all cur ty tok ms (processEvents (affinity st o) st1) = Done st'
        /\ received l (processEvents (affinity st o) st') = [m1]
        /\ filter (fun d => registered_for o d.1) (deliveries st st') = [(e, m1)]
        /\ subscriptions st' = pre ++ post).
Proof.
  intros e Hsubs Hp Ho Hw Hlog Hal Htok.
  assert (forall s : Subscription, s ∈ pre -> s ∈ pre ++ post) as Hinl.
  { intros s Hs. apply elem_of_app. by left. }
  assert (forall s : Subscription, s ∈ post -> s ∈ pre ++ post) as Hinr.
  { intros s Hs. apply elem_of_app. by right. }
  split.
  - (* the receiver lives in the sending thread *)
    intros Hc.
    destruct (self_unregistering_send_direct cur ty tok_e tok o l pre post
                Hp Ho Hw Htok m1 st Hsubs Hlog Hal Hc)
      as (st2 & Hsend & Hs2 & Hl2 & Hx2 & _).
    destruct (send_all_passive cur ty tok ms st2)
      as (st' & Hrun & Hs & _ & _ & Hx & Hl & _); [by rewrite Hs2|].
    exists st'. cbn [send_all]. rewrite Hsend.
    split; [done|]. split; [|split; [|congruence]].
    + rewrite Hl by (by rewrite Hs2). done.
    + rewrite (deliveries_app st st' _
                 ltac:(rewrite Hx, Hx2, <- !app_assoc; reflexivity)).
      rewrite !filter_app, filter_registered_concat_calls by (by rewrite Hs2).
      rewrite (calls_of_others o pre post Ho) by (by apply calls_for_others).
      rewrite filter_cons_True by reflexivity.
      rewrite (calls_of_others o pre post Ho).
      2:{ apply calls_for_others. intros s Hs'. apply Hinr.
          by eapply read_behind_within. }
      done.
  - (* the receiver lives in another thread *)
    intros Hc Hempty.
    destruct (self_unregistering_send_queued cur ty tok_e tok o l pre post
                Hp Hw Htok m1 st Hsubs Hal Hc)
      as (st1 & q1 & q2 & Hsend & Hs1 & Hl1 & Hd1 & Ha1 & Hx1 & Hq1 & Hall1).
    rewrite Hempty, app_nil_l in Hq1.
    apply Forall_app in Hall1 as [Hall1 Hall2].
    set (t := affinity st o).
    (* the event loop of the receiver's thread *)
    set (S0 := set_posted (filter (fun k => affinity st1 (target k) ≠ t)
                                  (posted st1)) st1).
    destruct (run_posted_quiet t l q1 S0) as [HsA HlA].
    { by apply (tasks_of_others_quiet l pre post Hp Hw). }
    destruct (run_posted_frame t q1 S0) as (HdA & HaA & HqA & HxA & _).
    set (SA := run_posted t q1 S0) in *.
    destruct (self_unregistering_runs ty tok_e o l pre post Ho m1 SA)
      as (HsB & HlB & (HdB & HaB & HqB & HxB & _)).
    { rewrite HsA. transitivity (subscriptions st1); [done|]. done. }
    { rewrite HlA. transitivity (received l st1); [done|]. congruence. }
    { unfold alive in *. rewrite HdA.
      transitivity (bool_decide (o ∉ destroyed st1)); [done|]. by rewrite Hd1. }
    set (SB := run_callback (selfUnregistering o l) m1 SA) in *.
    destruct (run_posted_quiet t l q2 SB) as [HsC HlC].
    { by apply (tasks_of_others_quiet l pre post Hp Hw). }
    destruct (run_posted_frame t q2 SB) as (HdC & HaC & HqC & HxC & _).
    assert (processEvents t st1 = run_posted t q2 SB) as Hloop.
    { unfold processEvents. fold S0. rewrite Hq1.
      rewrite run_posted_app. fold SA.
      cbn [run_posted target task_sub task_payload callback
           selfUnregisteringEntry].
      rewrite HaA. cbn [affinity S0 set_posted]. rewrite Ha1. fold t.
      rewrite bool_decide_eq_true_2 by done.
      unfold alive in *. rewrite HdA. cbn [destroyed S0 set_posted].
      rewrite Hd1, Hal. done. }
    (* the sends that follow *)
    destruct (self_unregistered_stays_silent cur ty tok o l pre post Hp Ho Hw t ms
                (processEvents t st1))
      as (st' & Hrun & Hs & Hl & (x & Hx & Hf) & Hlog' & _).
    { rewrite Hloop. congruence. }
    { rewrite Hloop, HqC, HqB, HqA. cbn [posted S0 set_posted]. rewrite Hq1.
      apply Forall_forall. intros k Hin.
      apply list_elem_of_filter in Hin as [Hne Hin].
      rewrite Forall_forall in Hall1, Hall2.
      apply elem_of_app in Hin as [Hin|Hin]; [by apply Hall1|].
      apply elem_of_cons in Hin as [->|Hin]; [|by apply Hall2].
      destruct Hne. cbn [target]. by rewrite Ha1. }
    exists st1, st'. split; [done|]. split; [congruence|].
    split; [done|]. split.
    { rewrite Hlog', Hloop. congruence. }
    split; [|done].
    rewrite (deliveries_app st st'
               ((((fun s => (s, m1)) <$>
                    filter (fun s => selected st ty tok s = true) pre)
                 ++ (e, m1)
                    :: ((fun s => (s, m1)) <$>
                          filter (fun s => selected st ty tok s = true) post))
                ++ x)).
    2:{ rewrite Hx, Hloop, HxC, HxB, HxA. cbn [dispatched S0 set_posted].
        rewrite Hx1, <- !app_assoc. done. }
    rewrite !filter_app, Hf, app_nil_r.
    rewrite (calls_of_others o pre post Ho) by (by apply calls_for_others).
    rewrite filter_cons_True by reflexivity.
    rewrite (calls_of_others o pre post Ho) by (by apply calls_for_others).
    done.
Qed.

(** The scenario of [self_unregister_in_callback], with an entry of
    another receiver on either side: one message, then a second. *)
Lemma self_unregistering_receiver_gets_first_only_witness :
  exists st',
    send_all 0 MyMessageT noToken [first; second]
      (bus [otherEntry; selfEntry; memberEntry noToken]) = Done st'
    /\ received 2 st' = [first]
    /\ filter (fun d => registered_for lambdaReceiver d.1)
              (deliveries (bus [otherEntry; selfEntry; memberEntry noToken]) st')
       = [(selfEntry, first)]
    /\ subscriptions st' = [otherEntry; memberEntry noToken].
Proof.
  apply (self_unregistering_receiver_gets_first_only
           0 MyMessageT noToken noToken lambdaReceiver 2
           [otherEntry] [memberEntry noToken] first [second]
           (bus [otherEntry; selfEntry; memberEntry noToken])).
  - reflexivity.
  - constructor; [reflexivity|]. constructor; [reflexivity|]. constructor.
  - constructor; [intros H; discriminate H|].
    constructor; [intros H; discriminate H|]. constructor.
  - constructor; [reflexivity|]. constructor; [reflexivity|]. constructor.
  - reflexivity.
  - reflexivity.
  - left. reflexivity.
  - reflexivity.
Defined.

(** ** C4: typed unregistration *)

(** C4. An entry is for (receiver, typeKey) when its weak pointer reads as
    that receiver and its type is that key. With an empty token the typed
    [Unregister] removes exactly those entries, whatever token they store;
    with a specific token it removes exactly those of them that store this
    very token, so an entry with an empty token stays, although a send with
    that token would reach it; the entries kept stay in their order, and an
    entry of another receiver or another type is always kept. *)
Theorem typed_unregister_removes_exactly ty r tok st :
  let st' := UnregisterT ty r tok st in
  (isEmpty tok = true ->
     subscriptions st' =
     filter (fun s => ¬ (data st (receiver s) = r /\ type s = ty))
            (subscriptions st))
  /\ (isEmpty tok = false ->
        subscriptions st' =
        filter (fun s => ¬ (data st (receiver s) = r /\ type s = ty
                            /\ token s = tok))
               (subscriptions st)
        /\ forall s, s ∈ subscriptions st -> isEmpty (token s) = true ->
                     s ∈ subscriptions st'
                     /\ (type s = ty -> isNull st (receiver s) = false ->
                         selected st ty tok s = true))
  /\ (forall s, s ∈ subscriptions st ->
                data st (receiver s) ≠ r \/ type s ≠ ty ->
                s ∈ subscriptions st')
  /\ destroyed st' = destroyed st
  /\ dispatched st' = dispatched st
  /\ logs st' = logs st.
Proof.
  cbn zeta. unfold UnregisterT. cbn [subscriptions set_subscriptions].
  rewrite erase_loop_filter.
  assert (forall a b : MessageToken, token_eq a b = true <-> a = b) as Heq.
  { intros [a] [b]. unfold token_eq. rewrite bool_decide_eq_true. cbn.
    naive_solver. }
  split; [|split; [|split; [|done]]].
  - intros He. apply list_filter_iff. intros s.
    rewrite He, orb_true_l, andb_true_r.
    rewrite andb_false_iff, !bool_decide_eq_false.
    destruct (decide (data st (receiver s) = r)); tauto.
  - intros He. split.
    + apply list_filter_iff. intros s. rewrite He, orb_false_l.
      rewrite !andb_false_iff, !bool_decide_eq_false.
      rewrite <- not_true_iff_false, Heq.
      destruct (decide (data st (receiver s) = r));
        destruct (decide (type s = ty)); tauto.
    + intros s Hs Hes. split.
      * apply list_elem_of_filter. split; [|done].
        rewrite He, orb_false_l. apply andb_false_iff. right.
        apply not_true_iff_false. rewrite Heq. intros <-. congruence.
      * intros Hty Hn. apply selected_spec. auto.
  - intros s Hs Hne. apply list_elem_of_filter. split; [|done].
    rewrite !andb_false_iff, !bool_decide_eq_false. tauto.
Qed.

(** The scenarios of [unregister_by_type_and_token] and
    [unregister_type_all_tokens] in one registry: unregistering the member
    receiver with token alpha keeps its beta entry and its tokenless one. *)
Lemma typed_unregister_removes_exactly_witness :
  subscriptions
    (UnregisterT MyMessageT (Some memberReceiver) alpha
       (bus [memberEntry alpha; memberEntry beta; memberEntry noToken]))
  = [memberEntry beta; memberEntry noToken].
Proof.
  rewrite (proj1 (proj1 (proj2 (typed_unregister_removes_exactly
             MyMessageT (Some memberReceiver) alpha
             (bus [memberEntry alpha; memberEntry beta; memberEntry noToken])))
           eq_refl)).
  reflexivity.
Defined.

(** ** C6: pruning dead entries *)

Lemma isNull_destroyed o st s :
  registered_for o s -> isNull (destroy o st) (receiver s) = true.
Proof.
  intros Hr. unfold isNull, data, alive. rewrite Hr. cbn [destroyed destroy].
  rewrite (bool_decide_eq_false_2 (o ∉ _)); [reflexivity|].
  intros Hn. apply Hn. left.
Qed.

(** C6. [Cleanup] keeps, in their order, exactly the entries whose weak
    pointer is not null at the time of the call, and changes nothing when
    there is none to remove. Once a receiver is destroyed and [Cleanup] has
    run, no entry of it is left, and a send of any type and token makes no
    delivery to it; every delivery of that send goes to a receiver that is
    not null, and the send ends normally when no callback unregisters. *)
Theorem cleanup_removes_exactly_the_dead st :
  subscriptions (Cleanup st)
  = filter (fun s => isNull st (receiver s) = false) (subscriptions st)
  /\ (forall s, s ∈ subscriptions (Cleanup st)
                <-> s ∈ subscriptions st /\ isNull st (receiver s) = false)
  /\ (Forall (fun s => isNull st (receiver s) = false) (subscriptions st) ->
      Cleanup st = st)
  /\ (forall o,
        let st1 := Cleanup (destroy o st) in
        Forall (fun s => ¬ registered_for o s) (subscriptions st1)
        /\ forall cur ty tok m,
             let st2 := state_of (internalSend cur ty tok m st1) in
             filter (fun d => registered_for o d.1) (deliveries st1 st2) = []
             /\ Forall (fun d => isNull st1 (receiver d.1) = false)
                       (deliveries st1 st2)
             /\ (passive (subscriptions st) ->
                 exists st', internalSend cur ty tok m st1 = Done st')).
Proof.
  split; [|split; [|split]].
  - unfold Cleanup. cbn [subscriptions set_subscriptions].
    apply erase_loop_filter.
  - intros s. unfold Cleanup. cbn [subscriptions set_subscriptions].
    apply elem_of_erase_loop.
  - intros Hall. unfold Cleanup. rewrite erase_loop_none by done.
    by destruct st.
  - intros o. cbn zeta.
    assert (Forall (fun s => ¬ registered_for o s)
                   (subscriptions (Cleanup (destroy o st)))) as Hgone.
    { apply Forall_forall. intros s Hs Hr.
      unfold Cleanup in Hs. cbn [subscriptions set_subscriptions] in Hs.
      apply elem_of_erase_loop in Hs as [_ Hs].
      by rewrite (isNull_destroyed o st s Hr) in Hs. }
    split; [exact Hgone|].
    intros cur ty tok m.
    destruct (internalSend_sound cur ty tok m (Cleanup (destroy o st)))
      as (_ & _ & _ & Hall).
    split; [|split].
    + apply filter_none. eapply Forall_impl; [exact Hall|].
      intros d (_ & Hin & _). rewrite Forall_forall in Hgone. by apply Hgone.
    + eapply Forall_impl; [exact Hall|].
      intros d (_ & _ & Hsel). by apply selected_spec in Hsel as (_ & _ & ?).
    + intros Hp.
      destruct (internalSend_passive cur ty tok m (Cleanup (destroy o st)))
        as (st' & Hrun & _); [|by exists st'].
      apply Forall_forall. intros s Hs.
      unfold Cleanup in Hs. cbn [subscriptions set_subscriptions] in Hs.
      apply elem_of_erase_loop in Hs as [Hs _].
      unfold passive in Hp. rewrite Forall_forall in Hp. by apply Hp.
Qed.

(** The scenario of [cleanup_removes_dead_receivers]: register, delete,
    [Cleanup], send. *)
Lemma cleanup_removes_exactly_the_dead_witness :
  exists st',
    internalSend 0 MyMessageT noToken hello
      (Cleanup (destroy ephemeral (bus [ephemeralEntry]))) = Done st'.
Proof.
  destruct (cleanup_removes_exactly_the_dead (bus [ephemeralEntry]))
    as (_ & _ & _ & H).
  destruct (H ephemeral) as (_ & Hsend).
  destruct (Hsend 0 MyMessageT noToken hello) as (_ & _ & Hdone).
  apply Hdone. repeat constructor.
Defined.

(** ** C7: unregistering twice *)

(** C7. [Unregister(receiver)] applied twice gives the state it gives
    applied once; neither call can fail. It leaves no entry whose weak
    pointer reads as the receiver, and the entries of every other receiver
    are the same list before and after, in the same order. *)
Theorem unregister_all_idempotent r st :
  Unregister r (Unregister r st) = Unregister r st
  /\ filter (fun s => data st (receiver s) ≠ r) (subscriptions (Unregister r st))
     = filter (fun s => data st (receiver s) ≠ r) (subscriptions st)
  /\ (forall o, r = Some o ->
        subscriptions (Unregister r st)
        = filter (fun s => data st (receiver s) ≠ r) (subscriptions st)).
Proof.
  destruct r as [o|]; cbn [Unregister]; [|by repeat split].
  assert (erase_loop (fun it => bool_decide (data st (receiver it) = Some o))
                     (subscriptions st)
          = filter (fun s => data st (receiver s) ≠ Some o) (subscriptions st))
    as Herase.
  { rewrite erase_loop_filter. apply list_filter_iff. intros s.
    by rewrite bool_decide_eq_false. }
  split; [|split].
  - unfold set_subscriptions. cbn [subscriptions destroyed affinity posted
                                   dispatched logs].
    f_equal.
    rewrite (erase_loop_ext _
               (fun it => bool_decide (data st (receiver it) = Some o))).
    + apply erase_loop_idemp.
    + intros it _. f_equal.
  - cbn [subscriptions set_subscriptions]. rewrite Herase.
    rewrite list_filter_filter. apply list_filter_iff. tauto.
  - intros o' _. cbn [subscriptions set_subscriptions]. exact Herase.
Qed.

(** ** C10: unregistering a null receiver *)

(** C10, as stated, fails in its typed half: with an empty token
    [Unregister<T>(nullptr)] also removes an entry of type T that was
    registered with a null receiver, although no receiver was destroyed. *)
Lemma C10_typed_null_unregister_removes_null_entry :
  let st := bus [nullEntry; memberEntry noToken] in
  destroyed st = []
  /\ type nullEntry = MyMessageT
  /\ subscriptions (UnregisterT MyMessageT nullptr noToken st)
     = [memberEntry noToken].
Proof. cbn zeta. by vm_compute. Qed.

(** C10, amended. Unregistering a null receiver never removes an entry whose
    receiver lives. The untyped [Unregister(nullptr)] returns at its guard
    and changes nothing. The typed [Unregister<T>(nullptr)] with an empty
    token removes exactly the entries of type T whose weak pointer is null,
    that is, whose receiver has been destroyed or which were registered with
    a null receiver, because such a pointer compares equal to [nullptr]. *)
Theorem null_unregister_spares_live_entries ty st :
  Unregister nullptr st = st
  /\ subscriptions (UnregisterT ty nullptr noToken st)
     = filter (fun s => ¬ (isNull st (receiver s) = true /\ type s = ty))
              (subscriptions st)
  /\ (forall s, isNull st (receiver s) = true
                <-> tracked (receiver s) = nullptr
                    \/ exists o, tracked (receiver s) = Some o /\ o ∈ destroyed st)
  /\ (forall tok s, s ∈ subscriptions st -> isNull st (receiver s) = false ->
                    s ∈ subscriptions (UnregisterT ty nullptr tok st)).
Proof.
  split; [done|]. split; [|split].
  - unfold UnregisterT. cbn [subscriptions set_subscriptions].
    rewrite erase_loop_filter. apply list_filter_iff. intros s.
    replace (isEmpty noToken) with true by reflexivity.
    rewrite orb_true_l, andb_true_r, andb_false_iff, !bool_decide_eq_false.
    unfold isNull. rewrite bool_decide_eq_true.
    destruct (decide (data st (receiver s) = nullptr)); tauto.
  - intros s. unfold isNull, data, alive. rewrite bool_decide_eq_true.
    destruct (tracked (receiver s)) as [o|]; [|naive_solver].
    case_bool_decide as Hd.
    + split; [done|]. intros [?|(o' & [= <-] & ?)]; done.
    + split; [|done]. intros _. right. exists o. split; [done|].
      destruct (decide (o ∈ destroyed st)); tauto.
  - intros tok s Hs Hn. unfold UnregisterT. cbn [subscriptions set_subscriptions].
    apply elem_of_erase_loop. split; [done|].
    unfold isNull in Hn. apply bool_decide_eq_false in Hn.
    rewrite bool_decide_eq_false_2 by done. done.
Qed.

(** ** C8: order *)

Lemma filter_target_posted o (seg : list Subscription) (q : list Task) :
  Forall (fun s => ¬ registered_for o s) seg ->
  Forall (fun k => task_sub k ∈ seg /\ registered_for (target k) (task_sub k)) q ->
  filter (fun k => target k = o) q = [].
Proof.
  intros Hseg Hq. apply filter_none.
  eapply Forall_impl; [exact Hq|]. intros k (Hin & Hr) <-.
  rewrite Forall_forall in Hseg. by apply (Hseg (task_sub k)).
Qed.

(** One receiver, registered once, among entries whose callbacks do not
    unregister: what a single matching send does. *)
Section SingleReceiver.
Variables (cur : nat) (ty : N) (tok : MessageToken).
Variables (o : QObject) (e : Subscription) (pre post : list Subscription).
Hypothesis He : registered_for o e.
Hypothesis Hty : type e = ty.
Hypothesis Htok :
  isEmpty (token e) = true \/ isEmpty tok = true \/ token e = tok.
Hypothesis Hpre : Forall (fun s => ¬ registered_for o s) pre.
Hypothesis Hpost : Forall (fun s => ¬ registered_for o s) post.
Hypothesis Hpassive : passive (pre ++ e :: post).

Lemma internalSend_single m st :
  subscriptions st = pre ++ e :: post ->
  alive st o = true ->
  exists st',
    internalSend cur ty tok m st = Done st'
    /\ subscriptions st' = subscriptions st
    /\ destroyed st' = destroyed st
    /\ affinity st' = affinity st
    /\ (exists x, dispatched st' = dispatched st ++ x
                  /\ filter (fun d => registered_for o d.1) x = [(e, m)])
    /\ (exists q, posted st' = posted st ++ q
                  /\ filter (fun k => target k = o) q
                     = (if bool_decide (affinity st o = cur) then []
                        else [mkTask o e m])
                  /\ Forall (fun k => task_sub k ∈ pre ++ e :: post
                                      /\ registered_for (target k) (task_sub k)) q)
    /\ (forall l,
          Forall (fun s => cb_writes l (callback s) = false) (pre ++ post) ->
          callback e = onMessage l ->
          received l st'
          = received l st
            ++ (if bool_decide (affinity st o = cur) then [m] else [])).
Proof.
  intros Hsubs Hal.
  apply Forall_app in Hpassive as [Hppre Hpepost].
  apply Forall_cons in Hpepost as [Hpe Hppost].
  (* the entries before *)
  destruct (send_loop_passive pre 0 cur ty tok m st (fresh (pre ++ e :: post)))
    as (st1 & Hrun1 & Hs1 & Hd1 & Ha1 & Hx1 & Hl1 & q1 & Hq1 & Hall1);
    [exact (reads_fresh [] pre (e :: post))|done|].
  (* the entry of the receiver *)
  assert (data st1 (receiver e) = Some o) as Hdata.
  { apply data_live; [done|]. unfold alive. by rewrite Hd1. }
  assert (selected st1 ty tok e = true) as Hsel.
  { apply selected_spec. repeat split; [done..|].
    apply isNull_false. exists o. split; [done|]. unfold alive. by rewrite Hd1. }
  set (st2 := send_body cur ty tok m e st1).
  destruct (send_body_frame cur ty tok m e st1) as (Hd2 & Ha2 & _ & Hx2).
  rewrite Hsel in Hx2. fold st2 in Hd2, Ha2, Hx2.
  assert (subscriptions st2 = subscriptions st1) as Hs2.
  { subst st2. rewrite send_body_selected, Hsel.
    apply invokeMethod_passive; [|done]. apply isNull_false.
    exists o. split; [done|]. unfold alive. by rewrite Hd1. }
  assert (posted st2 = posted st1
                       ++ (if bool_decide (affinity st o = cur) then []
                           else [mkTask o e m])) as Hq2.
  { subst st2. rewrite send_body_selected, Hsel. case_bool_decide as Hc.
    - rewrite (invokeMethod_direct _ _ _ _ o) by congruence.
      destruct (run_callback_frame (callback e) m (add_dispatched (e, m) st1))
        as (_ & _ & -> & _). by rewrite app_nil_r.
    - by rewrite (invokeMethod_queued _ _ _ _ o) by congruence. }
  assert (forall l, callback e = onMessage l ->
            received l st2
            = received l st1
              ++ (if bool_decide (affinity st o = cur) then [m] else []))
    as Hl2.
  { intros l Hcb. subst st2. rewrite send_body_selected, Hsel.
    case_bool_decide as Hc.
    - rewrite (invokeMethod_direct _ _ _ _ o) by congruence.
      rewrite Hcb. cbn [onMessage run_callback run_stmt].
      by rewrite received_add_log_eq.
    - rewrite (invokeMethod_queued _ _ _ _ o) by congruence.
      by rewrite app_nil_r. }
  (* the entries after *)
  destruct (send_loop_passive post (S (length pre)) cur ty tok m st2
              (fresh (pre ++ e :: post)))
    as (st' & Hrun & Hs & Hd & Ha & Hx & Hl & q & Hq & Hall);
    [apply reads_fresh_behind|done|].
  assert (internalSend cur ty tok m st = Done st') as Hsend.
  { unfold internalSend. rewrite Hsubs, length_app. cbn [length].
    rewrite send_loop_split, Hrun1. cbn [send_loop plus].
    rewrite fresh_middle. cbn [node_id element].
    rewrite bool_decide_eq_false_2 by apply not_elem_of_nil.
    rewrite send_body_array_passive by done. fold st2. by rewrite Hrun. }
  exists st'. split; [done|]. split; [congruence|]. split; [congruence|].
  split; [congruence|]. split; [|split].
  - eexists. split.
    { rewrite Hx, Hx2, Hx1, <- !app_assoc. reflexivity. }
    rewrite !filter_app.
    rewrite (filter_none _ (_ <$> filter _ pre)).
    2:{ apply Forall_forall. intros d Hin.
        apply list_elem_of_fmap in Hin as (s & -> & Hin).
        apply list_elem_of_filter in Hin as [_ Hin].
        rewrite Forall_forall in Hpre. by apply Hpre. }
    rewrite (filter_none _ (_ <$> filter _ post)).
    2:{ apply Forall_forall. intros d Hin.
        apply list_elem_of_fmap in Hin as (s & -> & Hin).
        apply list_elem_of_filter in Hin as [_ Hin].
        rewrite Forall_forall in Hpost. by apply Hpost. }
    by rewrite filter_cons_True.
  - eexists. split; [|split].
    { rewrite Hq, Hq2, Hq1, <- !app_assoc. reflexivity. }
    { rewrite !filter_app.
      rewrite (filter_target_posted o pre q1), (filter_target_posted o post q).
      + rewrite app_nil_r, app_nil_l. case_bool_decide; [done|].
        by rewrite filter_cons_True.
      + done.
      + eapply Forall_impl; [exact Hall|]. by intros k (? & ? & ?).
      + done.
      + eapply Forall_impl; [exact Hall1|]. by intros k (? & ? & ?). }
    repeat (apply Forall_app; split).
    + eapply Forall_impl; [exact Hall1|]. intros k (? & ? & _).
      split; [|done]. apply elem_of_app. by left.
    + case_bool_decide; [done|]. apply Forall_singleton. cbn.
      split; [|done]. apply elem_of_app. right. left.
    + eapply Forall_impl; [exact Hall|]. intros k (? & ? & _).
      split; [|done]. apply elem_of_app. right. by right.
  - intros l Hw Hcb. apply Forall_app in Hw as [Hwpre Hwpost].
    rewrite Hl, Hl2, Hl1 by done. done.
Qed.

(** The same for a run of sends from one thread. *)
Lemma send_all_single ms : forall st,
  subscriptions st = pre ++ e :: post ->
  alive st o = true ->
  exists st',
    send_all cur ty tok ms st = Done st'
    /\ subscriptions st' = subscriptions st
    /\ destroyed st' = destroyed st
    /\ affinity st' = affinity st
    /\ (exists x, dispatched st' = dispatched st ++ x
                  /\ filter (fun d => registered_for o d.1) x
                     = (fun m => (e, m)) <$> ms)
    /\ (exists q, posted st' = posted st ++ q
                  /\ filter (fun k => target k = o) q
                     = (if bool_decide (affinity st o = cur) then []
                        else mkTask o e <$> ms)
                  /\ Forall (fun k => task_sub k ∈ pre ++ e :: post
                                      /\ registered_for (target k) (task_sub k)) q)
    /\ (forall l,
          Forall (fun s => cb_writes l (callback s) = false) (pre ++ post) ->
          callback e = onMessage l ->
          received l st'
          = received l st
            ++ (if bool_decide (affinity st o = cur) then ms else [])).
Proof.
  induction ms as [|m ms IH]; intros st Hsubs Hal; cbn [send_all].
  { exists st. repeat split; try done.
    - exists []. by rewrite app_nil_r.
    - exists []. rewrite app_nil_r. by case_bool_decide.
    - intros l _ _. case_bool_decide; by rewrite app_nil_r. }
  destruct (internalSend_single m st Hsubs Hal)
    as (st1 & -> & Hs1 & Hd1 & Ha1 & (x1 & Hx1 & Hf1)
        & (q1 & Hq1 & Hg1 & Hall1) & Hl1).
  destruct (IH st1) as
    (st' & Hrun & Hs & Hd & Ha & (x & Hx & Hf) & (q & Hq & Hg & Hall) & Hl).
  { congruence. }
  { unfold alive in *. by rewrite Hd1. }
  exists st'. split; [done|]. split; [congruence|]. split; [congruence|].
  split; [congruence|]. split; [|split].
  - exists (x1 ++ x). split; [by rewrite Hx, Hx1, app_assoc|].
    by rewrite filter_app, Hf1, Hf.
  - exists (q1 ++ q). split; [by rewrite Hq, Hq1, app_assoc|]. split.
    + rewrite filter_app, Hg1, Hg, Ha1.
      by destruct (bool_decide (affinity st o = cur)).
    + by apply Forall_app.
  - intros l Hw Hcb. rewrite Hl, Hl1, Ha1 by done.
    rewrite <- app_assoc. by destruct (bool_decide (affinity st o = cur)).
Qed.
End SingleReceiver.

(** The event loop of the receiver's thread: the invocations posted for the
    receiver append their messages in posting order, the others leave its
    log alone. *)
Lemma run_posted_received t l o q : forall st,
  affinity st o = t ->
  alive st o = true ->
  Forall (fun k => (target k = o -> callback (task_sub k) = onMessage l)
                   /\ (target k ≠ o ->
                       cb_writes l (callback (task_sub k)) = false)) q ->
  received l (run_posted t q st)
  = received l st ++ (task_payload <$> filter (fun k => target k = o) q).
Proof.
  induction q as [|k q IH]; intros st Ha Hal Hq; cbn [run_posted].
  { by rewrite app_nil_r. }
  apply Forall_cons in Hq as [[Hk1 Hk2] Hq].
  destruct (decide (target k = o)) as [Hto|Hto].
  - rewrite Hto, Ha, Hal, bool_decide_eq_true_2 by done. cbn [andb].
    rewrite (Hk1 Hto). cbn [onMessage run_callback run_stmt].
    rewrite IH by done. rewrite received_add_log_eq.
    rewrite filter_cons_True by done. cbn [fmap list_fmap].
    by rewrite <- app_assoc.
  - rewrite filter_cons_False by done.
    destruct (bool_decide (affinity st (target k) = t) && alive st (target k));
      [|by apply IH].
    destruct (run_callback_frame (callback (task_sub k)) (task_payload k) st)
      as (Hd & Haf & _).
    rewrite IH; [|by rewrite Haf|unfold alive in *; by rewrite Hd|done].
    by rewrite run_callback_received by auto.
Qed.

(** C8. No operation reorders the registry. [register] puts the new entry
    after all the others; [Unregister], the typed [Unregister], [Cleanup]
    and [Send] leave a list obtained from the old one by removing entries,
    the rest in their order. Consequently, for one live receiver registered
    once among entries whose callbacks do not unregister, a sequence of
    matching sends from one thread ends normally and delivers to the
    receiver the messages sent, each once, in sending order; with the
    callback of [TestReceiver::onMessage] its log grows by exactly these
    messages in this order, at once when it lives in the sending thread, and
    when its thread next runs its event loop otherwise. Whatever the
    callbacks, the messages a run of sends delivers come in sending order. *)
Theorem operations_preserve_order :
  (forall ty tok r cb st,
     subscriptions (internalRegister ty tok r cb st)
     = subscriptions st ++ [mkSubscription ty tok (mkQPointer r) cb])
  /\ (forall r st, subscriptions (Unregister r st) `sublist_of` subscriptions st)
  /\ (forall ty r tok st,
        subscriptions (UnregisterT ty r tok st) `sublist_of` subscriptions st)
  /\ (forall st, subscriptions (Cleanup st) `sublist_of` subscriptions st)
  /\ (forall cur ty tok m st,
        subscriptions (state_of (internalSend cur ty tok m st))
          `sublist_of` subscriptions st)
  /\ (forall cur ty tok ms st,
        exists ks,
          length ks = length ms
          /\ (deliveries st (state_of (send_all cur ty tok ms st))).*2
             = concat (zip_with replicate ks ms))
  /\ (forall cur ty tok o e pre post l ms st,
        subscriptions st = pre ++ e :: post ->
        passive (subscriptions st) ->
        registered_for o e ->
        Forall (fun s => ¬ registered_for o s) (pre ++ post) ->
        alive st o = true ->
        type e = ty ->
        isEmpty (token e) = true \/ isEmpty tok = true \/ token e = tok ->
        exists st',
          send_all cur ty tok ms st = Done st'
          /\ subscriptions st' = subscriptions st
          /\ filter (fun d => registered_for o d.1) (deliveries st st')
             = (fun m => (e, m)) <$> ms
          /\ (callback e = onMessage l ->
              Forall (fun s => cb_writes l (callback s) = false) (pre ++ post) ->
              (affinity st o = cur -> received l st' = received l st ++ ms)
              /\ (affinity st o ≠ cur -> posted st = [] ->
                  received l st' = received l st
                  /\ received l (processEvents (affinity st o) st')
                     = received l st ++ ms))).
Proof.
  split; [done|]. split; [apply Unregister_sublist|].
  split; [intros; apply erase_loop_sublist|].
  split; [intros; apply erase_loop_sublist|].
  split.
  { intros cur ty tok m st.
    by destruct (internalSend_sound cur ty tok m st) as (_ & _ & ? & _). }
  split.
  { intros cur ty tok ms st.
    destruct (send_all_in_order cur ty tok ms st) as (ks & x & Hlen & Hx & Hm).
    exists ks. by rewrite (deliveries_app _ _ _ Hx). }
  intros cur ty tok o e pre post l ms st Hsubs Hp He Hno Hal Hty Htok.
  apply Forall_app in Hno as [Hpre Hpost]. rewrite Hsubs in Hp.
  destruct (send_all_single cur ty tok o e pre post He Hty Htok Hpre Hpost Hp
              ms st Hsubs Hal)
    as (st' & Hrun & Hs & Hd & Ha & (x & Hx & Hf) & (q & Hq & Hg & Hall) & Hl).
  exists st'. split; [done|]. split; [done|]. split.
  { by rewrite (deliveries_app _ _ _ Hx). }
  intros Hcb Hw. split.
  - intros Hc. rewrite Hl, bool_decide_eq_true_2 by done. done.
  - intros Hc Hempty.
    rewrite bool_decide_eq_false_2 in Hg by done.
    assert (received l st' = received l st) as Hsame.
    { rewrite Hl, bool_decide_eq_false_2 by done. by rewrite app_nil_r. }
    split; [done|].
    unfold processEvents. rewrite <- Ha.
    rewrite (run_posted_received (affinity st' o) l o).
    + rewrite Hq, Hempty, app_nil_l, Hg, <- list_fmap_compose.
      replace (received l (set_posted _ st')) with (received l st') by done.
      rewrite Hsame. f_equal. by rewrite <- (list_fmap_id ms) at 2.
    + done.
    + unfold alive in *. cbn [destroyed set_posted]. by rewrite Hd.
    + rewrite Hq, Hempty, app_nil_l.
      eapply Forall_impl; [exact Hall|]. intros k [Hin Hr].
      apply Forall_app in Hw as [Hwpre Hwpost].
      rewrite Forall_forall in Hpre, Hpost, Hwpre, Hwpost.
      apply elem_of_app in Hin as [Hin|Hin].
      * split; [intros <-; by destruct (Hpre _ Hin)|]. intros _. by apply Hwpre.
      * apply elem_of_cons in Hin as [Heq|Hin].
        -- rewrite Heq in *. split; [done|]. intros Hne. destruct Hne.
           unfold registered_for in *. congruence.
        -- split; [intros <-; by destruct (Hpost _ Hin)|]. intros _.
           by apply Hwpost.
Qed.

(** The scenario of [order_preservation_single_receiver], with three
    messages: the member receiver's list holds them in sending order. *)
Lemma operations_preserve_order_witness :
  received 1 (state_of (send_all 0 MyMessageT noToken [hello; first; second]
                          (bus [memberEntry noToken])))
  = [hello; first; second].
Proof.
  destruct operations_preserve_order as (_ & _ & _ & _ & _ & _ & H).
  destruct (H 0 MyMessageT noToken memberReceiver (memberEntry noToken) [] [] 1
              [hello; first; second] (bus [memberEntry noToken]))
    as (st' & Hrun & _ & _ & Hlog).
  - reflexivity.
  - repeat constructor.
  - reflexivity.
  - constructor.
  - reflexivity.
  - reflexivity.
  - left. reflexivity.
  - rewrite Hrun. cbn [state_of].
    destruct Hlog as [Hdirect _]; [reflexivity|constructor|].
    apply Hdirect. reflexivity.
Defined.

(** ** C5: duplicate registration *)

(** C5, as stated, fails in its consequence: two entries do not always make
    two deliveries. Here the callback registered twice is the one that
    unregisters its receiver on the first message. Its first run erases both
    entries and deletes their heap copies; the send has made one delivery
    when its iterator reaches the slot of the second entry, which points to
    a deleted copy. *)
Lemma C5_two_entries_one_delivery :
  let st2 :=
    internalRegister MyMessageT noToken (Some lambdaReceiver)
      (selfUnregistering lambdaReceiver 2)
      (internalRegister MyMessageT noToken (Some lambdaReceiver)
         (selfUnregistering lambdaReceiver 2) idle) in
  subscriptions st2 = [selfEntry; selfEntry]
  /\ exists st',
       internalSend 0 MyMessageT noToken first st2 = InvalidIterator st'
       /\ deliveries st2 st' = [(selfEntry, first)]
       /\ received 2 st' = [first]
       /\ subscriptions st' = [].
Proof.
  cbn zeta. split; [reflexivity|].
  eexists. split; [vm_compute; reflexivity|]. by vm_compute.
Qed.

(** One call of [invokeMethod] for an entry of a live receiver whose
    callback does not unregister. *)
Lemma invokeMethod_entry cur o e m st :
  registered_for o e ->
  alive st o = true ->
  cb_passive (callback e) = true ->
  let st' := invokeMethod cur e m st in
  subscriptions st' = subscriptions st
  /\ destroyed st' = destroyed st
  /\ affinity st' = affinity st
  /\ dispatched st' = dispatched st ++ [(e, m)]
  /\ posted st' = posted st ++ (if bool_decide (affinity st o = cur) then []
                                else [mkTask o e m])
  /\ (forall l, callback e = onMessage l ->
        received l st'
        = received l st ++ (if bool_decide (affinity st o = cur) then [m] else [])).
Proof.
  intros He Hal Hcb. cbn zeta.
  assert (data st (receiver e) = Some o) as Hdata by by apply data_live.
  assert (isNull st (receiver e) = false) as Hn.
  { apply isNull_false. by exists o. }
  destruct (invokeMethod_frame cur e m st Hn) as (Hd & Ha & Hx & _).
  split; [by apply invokeMethod_passive|]. do 3 (split; [done|]).
  case_bool_decide as Hc.
  - rewrite (invokeMethod_direct _ _ _ _ o) by done. split.
    + destruct (run_callback_frame (callback e) m (add_dispatched (e, m) st))
        as (_ & _ & -> & _). by rewrite app_nil_r.
    + intros l ->. cbn [onMessage run_callback run_stmt].
      by rewrite received_add_log_eq.
  - rewrite (invokeMethod_queued _ _ _ _ o) by done. split; [done|].
    intros l _. by rewrite app_nil_r.
Qed.

(** C5, amended. [register] appends a new entry whatever the registry
    holds: registering the same receiver, type, callback and token twice
    leaves two equal entries at the end of the list. For a live receiver
    that had no entry before, when neither its callback nor those of the
    entries before unregister, a matching send ends normally, leaves the
    registry as it was and makes exactly two deliveries to that receiver.
    When the receiver lives in the sending thread its callback has run
    twice when the send returns; otherwise two invocations have been posted
    to it. With the callback of [TestReceiver::onMessage], the earlier
    entries not writing its log: the log has grown by the message twice
    when the send returns in the first case, is unchanged in the second,
    and has grown by the message twice, in both, once the event loop of the
    receiver's thread has run. *)
Theorem duplicate_registration_delivers_twice cur ty tok_r tok r cb m st :
  let e := mkSubscription ty tok_r (mkQPointer r) cb in
  let st2 := internalRegister ty tok_r r cb (internalRegister ty tok_r r cb st) in
  subscriptions st2 = subscriptions st ++ [e; e]
  /\ (forall o,
        r = Some o ->
        passive (subscriptions st) ->
        cb_passive cb = true ->
        Forall (fun s => ¬ registered_for o s) (subscriptions st) ->
        alive st o = true ->
        isEmpty tok_r = true \/ isEmpty tok = true \/ tok_r = tok ->
        exists st',
          internalSend cur ty tok m st2 = Done st'
          /\ filter (fun d => registered_for o d.1) (deliveries st2 st')
             = [(e, m); (e, m)]
          /\ subscriptions st' = subscriptions st2
          /\ filter (fun k => target k = o) (posted st')
             = filter (fun k => target k = o) (posted st)
               ++ (if bool_decide (affinity st o = cur) then []
                   else [mkTask o e m; mkTask o e m])
          /\ (forall l,
                cb = onMessage l ->
                Forall (fun s => cb_writes l (callback s) = false)
                       (subscriptions st) ->
                received l st'
                = received l st
                  ++ (if bool_decide (affinity st o = cur) then [m; m] else [])
                /\ (posted st = [] ->
                    received l (processEvents (affinity st o) st')
                    = received l st ++ [m; m]))).
Proof.
  cbn zeta.
  set (e := mkSubscription ty tok_r (mkQPointer r) cb).
  set (st2 := internalRegister _ _ _ _ _).
  assert (subscriptions st2 = subscriptions st ++ [e; e]) as Hs2.
  { subst st2. unfold internalRegister. cbn [subscriptions set_subscriptions].
    by rewrite <- app_assoc. }
  split; [exact Hs2|].
  intros o Hr Hp Hcb Ho Hal Htok.
  assert (registered_for o e) as He by (by subst r).
  (* the entries before *)
  destruct (send_loop_passive (subscriptions st) 0 cur ty tok m st2
              (fresh (subscriptions st ++ [e; e])))
    as (st1 & Hrun1 & Hs1 & Hd1 & Ha1 & Hx1 & Hl1 & q1 & Hq1 & Hall1);
    [exact (reads_fresh [] (subscriptions st) [e; e])|done|].
  assert (filter (fun k => target k = o) q1 = []) as Hq1o.
  { apply (filter_target_posted o (subscriptions st)); [done|].
    eapply Forall_impl; [exact Hall1|]. by intros k (? & ? & _). }
  (* the first of the two entries *)
  assert (alive st1 o = true) as Hal1.
  { unfold alive in *. rewrite Hd1. done. }
  assert (selected st1 ty tok e = true) as Hsel1.
  { apply selected_spec. repeat split; [done|]. apply isNull_false. by exists o. }
  destruct (invokeMethod_entry cur o e m st1 He Hal1 Hcb)
    as (HsA & HdA & HaA & HxA & HqA & HlA).
  set (stA := invokeMethod cur e m st1) in *.
  (* the second *)
  assert (alive stA o = true) as HalA.
  { unfold alive in *. by rewrite HdA. }
  assert (selected stA ty tok e = true) as HselA.
  { by rewrite (selected_ext st1 stA). }
  destruct (invokeMethod_entry cur o e m stA He HalA Hcb)
    as (HsB & HdB & HaB & HxB & HqB & HlB).
  set (stB := invokeMethod cur e m stA) in *.
  assert (affinity st1 o = affinity st o) as Hao.
  { rewrite Ha1. done. }
  assert (affinity stA o = affinity st o) as HaoA.
  { by rewrite HaA. }
  rewrite Hao in HqA, HlA. rewrite HaoA in HqB, HlB.
  assert (internalSend cur ty tok m st2 = Done stB) as Hsend.
  { unfold internalSend. rewrite Hs2, length_app. cbn [length].
    rewrite send_loop_split, Hrun1. cbn [send_loop plus].
    rewrite (fresh_middle (subscriptions st) e [e]). cbn [node_id element].
    rewrite bool_decide_eq_false_2 by apply not_elem_of_nil.
    rewrite send_body_array_passive by done.
    rewrite send_body_selected, Hsel1. fold stA.
    destruct (reads_fresh_behind (subscriptions st) e [e] 0 e eq_refl)
      as (id & Hid & Hdel).
    rewrite Nat.add_0_r in Hid. rewrite Hid. cbn [node_id element].
    rewrite bool_decide_eq_false_2 by done.
    by rewrite send_body_selected, HselA. }
  assert (posted st2 = posted st) as Hq2 by done.
  assert (forall l, received l st2 = received l st) as Hl2 by done.
  exists stB. split; [done|]. split; [|split; [congruence|split]].
  - rewrite (deliveries_app st2 stB
               (((fun s => (s, m)) <$>
                   filter (fun s => selected st2 ty tok s = true) (subscriptions st))
                ++ [(e, m); (e, m)])).
    2:{ rewrite HxB, HxA, Hx1, <- !app_assoc. done. }
    rewrite filter_app, (filter_none _ (_ <$> _)).
    2:{ apply Forall_forall. intros d Hin.
        apply list_elem_of_fmap in Hin as (s & -> & Hin).
        apply list_elem_of_filter in Hin as [_ Hin].
        rewrite Forall_forall in Ho. by apply Ho. }
    rewrite app_nil_l, 2!filter_cons_True by exact He. by rewrite filter_nil.
  - rewrite HqB, HqA, Hq1, Hq2, !filter_app, Hq1o, app_nil_r.
    rewrite <- app_assoc. f_equal.
    case_bool_decide; [done|].
    rewrite <- filter_app. cbn [app]. by rewrite 2!filter_cons_True.
  - intros l Hcbl Hw.
    assert (received l stB
            = received l st
              ++ (if bool_decide (affinity st o = cur) then [m; m] else []))
      as HlogB.
    { rewrite (HlB l Hcbl), (HlA l Hcbl), (Hl1 l Hw), Hl2, <- app_assoc.
      by case_bool_decide. }
    split; [exact HlogB|]. intros Hempty.
    unfold processEvents.
    rewrite (run_posted_received (affinity st o) l o).
    + replace (received l (set_posted _ stB)) with (received l stB) by done.
      rewrite HlogB, HqB, HqA, Hq1, Hq2, Hempty, app_nil_l, <- app_assoc.
      rewrite <- app_assoc. f_equal.
      rewrite !filter_app, Hq1o, app_nil_l.
      case_bool_decide; [done|].
      rewrite <- filter_app. cbn [app]. by rewrite 2!filter_cons_True.
    + cbn [affinity set_posted]. by rewrite HaB.
    + unfold alive in *. cbn [destroyed set_posted]. by rewrite HdB.
    + rewrite HqB, HqA, Hq1, Hq2, Hempty, app_nil_l, <- app_assoc.
      apply Forall_app. split.
      * eapply Forall_impl; [exact Hall1|]. intros k (Hin & Hreg & _).
        rewrite Forall_forall in Ho, Hw. split.
        -- intros Hto. rewrite Hto in Hreg. by destruct (Ho _ Hin).
        -- intros _. by apply Hw.
      * case_bool_decide; [done|]. cbn [app].
        repeat (constructor; [split; [done|intros Hne; by destruct Hne]|]).
        constructor.
Qed.

(** The scenario of [duplicate_register_same_type]. *)
Lemma duplicate_registration_delivers_twice_witness :
  exists st',
    internalSend 0 MyMessageT noToken hello
      (bus [memberEntry noToken; memberEntry noToken]) = Done st'
    /\ filter (fun d => registered_for memberReceiver d.1)
              (deliveries (bus [memberEntry noToken; memberEntry noToken]) st')
       = [(memberEntry noToken, hello); (memberEntry noToken, hello)]
    /\ subscriptions st' = [memberEntry noToken; memberEntry noToken]
    /\ filter (fun k => target k = memberReceiver) (posted st') = []
    /\ received 1 st' = [hello; hello]
    /\ received 1 (processEvents 0 st') = [hello; hello].
Proof.
  destruct (proj2 (duplicate_registration_delivers_twice
                     0 MyMessageT noToken noToken (Some memberReceiver)
                     (onMessage 1) hello idle) memberReceiver)
    as (st' & Hsend & Hdel & Hsubs & Hposted & Hlog).
  - reflexivity.
  - constructor.
  - reflexivity.
  - constructor.
  - reflexivity.
  - left. reflexivity.
  - destruct (Hlog 1 eq_refl (Forall_nil_2 _)) as [Hnow Hlater].
    exists st'. repeat split; [exact Hsend|exact Hdel|exact Hsubs|exact Hposted
                              |exact Hnow|exact (Hlater eq_refl)].
Defined.

(** * Further properties of the code *)

(** ** How the erase loops compose *)

Lemma erase_loop_comm c1 c2 l :
  erase_loop c1 (erase_loop c2 l) = erase_loop c2 (erase_loop c1 l).
Proof.
  induction l as [|it rest IH]; [done|].
  cbn [erase_loop].
  destruct (c1 it) eqn:E1, (c2 it) eqn:E2; cbn [erase_loop];
    rewrite ?E1, ?E2, ?IH; done.
Qed.

Lemma erase_loop_absorb c1 c2 l :
  (forall it, c1 it = true -> c2 it = true) ->
  erase_loop c2 (erase_loop c1 l) = erase_loop c2 l.
Proof.
  intros Himp. induction l as [|it rest IH]; [done|].
  cbn [erase_loop]. destruct (c1 it) eqn:E1.
  - by rewrite (Himp it E1).
  - cbn [erase_loop]. by rewrite IH.
Qed.

(** The three loops as one erase over a condition that reads the state only
    for the liveness of objects. *)
Lemma Unregister_erase o st :
  Unregister (Some o) st
  = set_subscriptions
      (erase_loop (fun it => bool_decide (data st (receiver it) = Some o))
                  (subscriptions st)) st.
Proof. done. Qed.

Lemma set_subscriptions_twice l1 l2 st :
  set_subscriptions l2 (set_subscriptions l1 st) = set_subscriptions l2 st.
Proof. done. Qed.

Lemma set_subscriptions_same st : set_subscriptions (subscriptions st) st = st.
Proof. by destruct st. Qed.

(** X1. [Unregister], the typed [Unregister] and [Cleanup] commute with one
    another: whatever the receivers, types and tokens, applying two of them
    in either order gives the same state. *)
Theorem erase_operations_commute r1 r2 ty1 tok1 ty2 tok2 st :
  Unregister r1 (Unregister r2 st) = Unregister r2 (Unregister r1 st)
  /\ Unregister r1 (Cleanup st) = Cleanup (Unregister r1 st)
  /\ Unregister r1 (UnregisterT ty2 r2 tok2 st)
     = UnregisterT ty2 r2 tok2 (Unregister r1 st)
  /\ UnregisterT ty1 r1 tok1 (Cleanup st) = Cleanup (UnregisterT ty1 r1 tok1 st)
  /\ UnregisterT ty1 r1 tok1 (UnregisterT ty2 r2 tok2 st)
     = UnregisterT ty2 r2 tok2 (UnregisterT ty1 r1 tok1 st).
Proof.
  repeat split.
  - destruct r1 as [o1|], r2 as [o2|]; try done.
    unfold Unregister, set_subscriptions; cbn. f_equal. apply erase_loop_comm.
  - destruct r1 as [o1|]; [|done].
    unfold Unregister, Cleanup, set_subscriptions; cbn. f_equal.
    apply erase_loop_comm.
  - destruct r1 as [o1|]; [|done].
    unfold Unregister, UnregisterT, set_subscriptions; cbn. f_equal.
    apply erase_loop_comm.
  - unfold UnregisterT, Cleanup, set_subscriptions; cbn. f_equal.
    apply erase_loop_comm.
  - unfold UnregisterT, set_subscriptions; cbn. f_equal. apply erase_loop_comm.
Qed.

(** X2. Removing more absorbs removing less. After [Unregister(o)] a typed
    [Unregister] of the same receiver finds nothing to remove, and before it
    it is redundant; a typed [Unregister] with an empty token absorbs one
    with a specific token; the typed [Unregister] and [Cleanup] are
    idempotent. *)
Theorem unregister_absorbs o ty tok st :
  UnregisterT ty (Some o) tok (Unregister (Some o) st) = Unregister (Some o) st
  /\ Unregister (Some o) (UnregisterT ty (Some o) tok st) = Unregister (Some o) st
  /\ UnregisterT ty (Some o) noToken (UnregisterT ty (Some o) tok st)
     = UnregisterT ty (Some o) noToken st
  /\ (forall r, UnregisterT ty r tok (UnregisterT ty r tok st)
                = UnregisterT ty r tok st)
  /\ Cleanup (Cleanup st) = Cleanup st.
Proof.
  repeat split.
  - unfold Unregister, UnregisterT, set_subscriptions; cbn. f_equal.
    rewrite erase_loop_comm. apply erase_loop_absorb.
    intros it H. by apply andb_true_iff in H as [[? ?]%andb_true_iff ?].
  - unfold Unregister, UnregisterT, set_subscriptions; cbn. f_equal.
    apply erase_loop_absorb.
    intros it H. by apply andb_true_iff in H as [[? ?]%andb_true_iff ?].
  - unfold UnregisterT, set_subscriptions; cbn. f_equal.
    apply erase_loop_absorb. intros it H.
    apply andb_true_iff in H as [-> _]. done.
  - intros r. unfold UnregisterT, set_subscriptions; cbn. f_equal.
    apply erase_loop_idemp.
  - unfold Cleanup, set_subscriptions; cbn. f_equal. apply erase_loop_idemp.
Qed.

(** ** Registering and unregistering *)

Lemma data_alive st o : alive st o = true -> data st (mkQPointer (Some o)) = Some o.
Proof. intros H. by apply data_live. Qed.

(** X3. For a live receiver, registering and then unregistering it leaves
    what unregistering alone leaves, by [Unregister(o)] and by the typed
    [Unregister] with the token of the registration or with none; when the
    receiver had no entry, [Unregister(o)] gives back the registry as it was
    before the registration. *)
Theorem register_then_unregister ty tok o cb st :
  alive st o = true ->
  Unregister (Some o) (internalRegister ty tok (Some o) cb st)
  = Unregister (Some o) st
  /\ UnregisterT ty (Some o) tok (internalRegister ty tok (Some o) cb st)
     = UnregisterT ty (Some o) tok st
  /\ UnregisterT ty (Some o) noToken (internalRegister ty tok (Some o) cb st)
     = UnregisterT ty (Some o) noToken st
  /\ (Forall (fun s => ¬ registered_for o s) (subscriptions st) ->
      Unregister (Some o) (internalRegister ty tok (Some o) cb st) = st).
Proof.
  intros Hal.
  assert (data st (mkQPointer (Some o)) = Some o) as Hd by by apply data_alive.
  assert (Unregister (Some o) (internalRegister ty tok (Some o) cb st)
          = Unregister (Some o) st) as Hu.
  { unfold Unregister, internalRegister, set_subscriptions; cbn. f_equal.
    rewrite erase_loop_app. cbn [erase_loop receiver].
    change (data _ (mkQPointer (Some o))) with (data st (mkQPointer (Some o))).
    rewrite Hd, bool_decide_eq_true_2 by done. by rewrite app_nil_r. }
  split; [exact Hu|]. split; [|split].
  - unfold UnregisterT, internalRegister, set_subscriptions; cbn. f_equal.
    rewrite erase_loop_app. cbn [erase_loop receiver type token].
    change (data _ (mkQPointer (Some o))) with (data st (mkQPointer (Some o))).
    rewrite Hd, !bool_decide_eq_true_2 by done.
    replace (token_eq tok tok) with true
      by (symmetry; by apply bool_decide_eq_true_2).
    rewrite orb_true_r. cbn [andb]. by rewrite app_nil_r.
  - unfold UnregisterT, internalRegister, set_subscriptions; cbn. f_equal.
    rewrite erase_loop_app. cbn [erase_loop receiver type token].
    change (data _ (mkQPointer (Some o))) with (data st (mkQPointer (Some o))).
    rewrite Hd, !bool_decide_eq_true_2 by done.
    replace (isEmpty noToken) with true by reflexivity.
    cbn [andb orb]. by rewrite app_nil_r.
  - intros Hnone. rewrite Hu, Unregister_erase, erase_loop_none.
    + apply set_subscriptions_same.
    + eapply Forall_impl; [exact Hnone|]. intros s Hs. cbn beta.
      by apply not_registered_data.
Qed.

(** The scenario of [re_register_after_unregister]. *)
Lemma register_then_unregister_witness :
  Unregister (Some memberReceiver)
    (internalRegister MyMessageT noToken (Some memberReceiver) (onMessage 1) idle)
  = idle.
Proof.
  apply (register_then_unregister MyMessageT noToken memberReceiver
           (onMessage 1) idle); [reflexivity|constructor].
Defined.

(** X4. Unregistering a receiver that has been destroyed removes nothing:
    its weak pointers read as null and compare unequal to the pointer passed.
    Its entries stay in the registry until [Cleanup], which removes every one
    of them. *)
Theorem unregister_destroyed_receiver_is_noop ty tok o st :
  alive st o = false ->
  Unregister (Some o) st = st
  /\ UnregisterT ty (Some o) tok st = st
  /\ (forall s, registered_for o s -> s ∉ subscriptions (Cleanup st)).
Proof.
  intros Hdead.
  assert (forall it, bool_decide (data st (receiver it) = Some o) = false) as Hno.
  { intros it. apply bool_decide_eq_false. intros Hd.
    apply data_Some in Hd as [_ Ha]. congruence. }
  split; [|split].
  - rewrite Unregister_erase, erase_loop_none; [apply set_subscriptions_same|].
    apply Forall_forall. intros it _. apply Hno.
  - unfold UnregisterT. rewrite erase_loop_none; [apply set_subscriptions_same|].
    apply Forall_forall. intros it _. cbn beta. by rewrite Hno.
  - intros s Hr Hin. unfold Cleanup in Hin.
    cbn [subscriptions set_subscriptions] in Hin.
    apply elem_of_erase_loop in Hin as [_ Hn].
    apply isNull_false in Hn as (o' & Ht & Ha).
    unfold registered_for in Hr. congruence.
Qed.

(** An entry of the destroyed [ephemeral] survives [Unregister]. *)
Lemma unregister_destroyed_receiver_is_noop_witness :
  Unregister (Some ephemeral) (destroy ephemeral (bus [ephemeralEntry]))
  = destroy ephemeral (bus [ephemeralEntry]).
Proof.
  apply (unregister_destroyed_receiver_is_noop MyMessageT noToken ephemeral
           (destroy ephemeral (bus [ephemeralEntry]))).
  reflexivity.
Defined.

(** ** Sends after an unregistration *)

Lemma calls_filter st ty tok m (c : Subscription -> bool) :
  calls (set_subscriptions (erase_loop c (subscriptions st)) st) ty tok m
  = filter (fun d => c d.1 = false) (calls st ty tok m).
Proof.
  unfold calls. cbn [subscriptions set_subscriptions].
  rewrite erase_loop_filter.
  rewrite (list_filter_iff _ (fun s => selected st ty tok s = true))
    by (intros s; by rewrite (selected_ext st)).
  induction (subscriptions st) as [|s l IH]; [done|].
  rewrite (filter_cons _ s). destruct (decide (c s = false)) as [Ec|Ec].
  - rewrite !(filter_cons _ s).
    destruct (decide (selected st ty tok s = true)) as [Es|Es].
    + cbn [fmap list_fmap]. rewrite filter_cons_True by done. by rewrite IH.
    + exact IH.
  - rewrite (filter_cons _ s).
    destruct (decide (selected st ty tok s = true)) as [Es|Es]; [|exact IH].
    cbn [fmap list_fmap]. by rewrite filter_cons_False.
Qed.

Lemma passive_erase_loop c l : passive l -> passive (erase_loop c l).
Proof.
  unfold passive. rewrite !Forall_forall. intros H s Hs.
  apply elem_of_erase_loop in Hs as [Hs _]. by apply H.
Qed.

(** X5. After [Unregister(o)] no send of any type and token delivers to an
    entry registered for [o], whatever the callbacks do. After the typed
    [Unregister<T>(o, token)], a send of type T delivers to an entry of [o]
    only if the token given was specific and the entry stores another
    token. When no callback unregisters, a send after [Unregister(o)] makes
    the deliveries it would have made before, without those to [o], in the
    same order. *)
Theorem unregister_stops_delivery o st :
  (forall cur ty tok m sub m',
     (sub, m') ∈ deliveries (Unregister (Some o) st)
                  (state_of (internalSend cur ty tok m (Unregister (Some o) st))) ->
     ¬ registered_for o sub)
  /\ (forall cur ty tok0 tok m sub m',
        (sub, m') ∈ deliveries (UnregisterT ty (Some o) tok0 st)
                     (state_of (internalSend cur ty tok m
                                  (UnregisterT ty (Some o) tok0 st))) ->
        registered_for o sub ->
        isEmpty tok0 = false /\ token sub ≠ tok0)
  /\ (passive (subscriptions st) ->
      forall cur ty tok m,
      exists st1 st2,
        internalSend cur ty tok m st = Done st1
        /\ internalSend cur ty tok m (Unregister (Some o) st) = Done st2
        /\ deliveries (Unregister (Some o) st) st2
           = filter (fun d => data st (receiver d.1) ≠ Some o) (deliveries st st1)).
Proof.
  split; [|split].
  - intros cur ty tok m sub m' Hin Hr.
    apply delivery_selected in Hin as (_ & Hsub & _ & _ & Hn).
    rewrite Unregister_erase in Hsub. cbn [subscriptions set_subscriptions] in Hsub.
    apply elem_of_erase_loop in Hsub as [_ Hne%bool_decide_eq_false].
    change (isNull st (receiver sub) = false) in Hn.
    apply isNull_false in Hn as (o' & Ht & Ha).
    assert (o' = o) as -> by (unfold registered_for in Hr; congruence).
    apply Hne. by apply data_live.
  - intros cur ty tok0 tok m sub m' Hin Hr.
    apply delivery_selected in Hin as (_ & Hsub & Hty & _ & Hn).
    unfold UnregisterT in Hsub. cbn [subscriptions set_subscriptions] in Hsub.
    apply elem_of_erase_loop in Hsub as [_ Hc].
    change (isNull st (receiver sub) = false) in Hn.
    apply isNull_false in Hn as (o' & Ht & Ha).
    assert (o' = o) as -> by (unfold registered_for in Hr; congruence).
    assert (data st (receiver sub) = Some o) as Hd by by apply data_live.
    rewrite !bool_decide_eq_true_2 in Hc by done. cbn [andb] in Hc.
    apply orb_false_iff in Hc as [He Hne]. split; [done|].
    intros Heq. unfold token_eq in Hne. apply bool_decide_eq_false in Hne.
    apply Hne. by rewrite Heq.
  - intros Hp cur ty tok m.
    destruct (internalSend_passive cur ty tok m st Hp)
      as (st1 & Hrun1 & _ & _ & _ & Hx1 & _).
    destruct (internalSend_passive cur ty tok m (Unregister (Some o) st))
      as (st2 & Hrun2 & _ & _ & _ & Hx2 & _).
    { rewrite Unregister_erase. by apply passive_erase_loop. }
    exists st1, st2. split; [done|]. split; [done|].
    rewrite (deliveries_app _ _ _ Hx1), (deliveries_app _ _ _ Hx2).
    rewrite Unregister_erase, calls_filter.
    apply list_filter_iff. intros d. by rewrite bool_decide_eq_false.
Qed.

Lemma send_loop_unselected seg : forall it cur ty tok m st p,
  reads p it seg ->
  Forall (fun s => selected st ty tok s = false) seg ->
  send_loop (length seg) it cur ty tok m st p = (Done st, p).
Proof.
  induction seg as [|sub seg IH]; intros it cur ty tok m st p Hreads Hno;
    [done|].
  apply Forall_cons in Hno as [Hsub Hseg].
  apply reads_cons in Hreads as ((id & Hid & Hdel) & Hreads).
  cbn [length send_loop]. rewrite Hid. cbn [node_id element].
  rewrite bool_decide_eq_false_2 by done.
  rewrite send_body_selected, send_body_array_selected, Hsub.
  by apply IH.
Qed.

(** X6. A send that no entry is selected for is a no-op: the loop ends
    normally and the whole state is as before. That is the case of an empty
    registry, of a type nobody subscribed to, of a token no subscriber
    stores while all store one, and of subscribers all destroyed. *)
Theorem send_without_subscriber_is_noop cur ty tok m st :
  Forall (fun s => type s ≠ ty
                   \/ (isEmpty (token s) = false /\ isEmpty tok = false
                       /\ token s ≠ tok)
                   \/ isNull st (receiver s) = true) (subscriptions st) ->
  internalSend cur ty tok m st = Done st.
Proof.
  intros Hno. unfold internalSend.
  rewrite (send_loop_unselected (subscriptions st) 0 cur ty tok m st
             (fresh (subscriptions st))); [done| |].
  { pose proof (reads_fresh [] (subscriptions st) []) as H.
    by rewrite app_nil_r in H. }
  eapply Forall_impl; [exact Hno|]. intros s Hs. cbn beta.
  apply not_true_iff_false. intros Hsel.
  apply selected_spec in Hsel as (Hty & Htok & Hn).
  destruct Hs as [?|[(? & ? & ?)|?]]; [done| |congruence].
  destruct Htok as [?|[?|?]]; congruence.
Qed.

(** The scenario of [type_isolation]: a subscriber of [MyMessage] and a send
    of [AnotherMessage]. *)
Lemma send_without_subscriber_is_noop_witness :
  internalSend 0 AnotherMessageT noToken hello (bus [memberEntry noToken])
  = Done (bus [memberEntry noToken]).
Proof.
  apply send_without_subscriber_is_noop.
  constructor; [|constructor]. left. intros H. discriminate H.
Defined.

(** ** What a send delivers, and what leaves it unchanged *)

(** X7. When no callback unregisters, a send ends normally, leaves the
    registry as it was and makes exactly one delivery for each entry that
    passes the three tests of the loop, in registration order, an entry
    registered several times being served that many times. When every entry
    passes, the deliveries are the registry itself, one per entry. *)
Theorem send_fans_out_in_registration_order cur ty tok m st :
  passive (subscriptions st) ->
  exists st',
    internalSend cur ty tok m st = Done st'
    /\ subscriptions st' = subscriptions st
    /\ deliveries st st'
       = (fun s => (s, m)) <$>
           filter (fun s => selected st ty tok s = true) (subscriptions st)
    /\ (Forall (fun s => selected st ty tok s = true) (subscriptions st) ->
        (deliveries st st').*1 = subscriptions st).
Proof.
  intros Hp.
  destruct (internalSend_passive cur ty tok m st Hp)
    as (st' & Hrun & Hs & _ & _ & Hx & _).
  exists st'. split; [done|]. split; [done|].
  rewrite (deliveries_app _ _ _ Hx). split; [done|].
  intros Hall. unfold calls.
  rewrite <- list_fmap_compose.
  replace (filter _ (subscriptions st)) with (subscriptions st).
  - by rewrite <- (list_fmap_id (subscriptions st)) at 2.
  - clear -Hall. induction Hall as [|s l Hs _ IH]; [done|].
    by rewrite filter_cons_True, <- IH.
Qed.

(** The scenario of [multiple_receivers_same_type]. *)
Lemma send_fans_out_in_registration_order_witness :
  exists st',
    internalSend 0 MyMessageT noToken hello (bus [memberEntry noToken; otherEntry])
    = Done st'
    /\ subscriptions st' = [memberEntry noToken; otherEntry]
    /\ deliveries (bus [memberEntry noToken; otherEntry]) st'
       = [(memberEntry noToken, hello); (otherEntry, hello)].
Proof.
  destruct (send_fans_out_in_registration_order 0 MyMessageT noToken hello
              (bus [memberEntry noToken; otherEntry]))
    as (st' & Hrun & Hs & Hd & _).
  - repeat constructor.
  - exists st'. split; [exact Hrun|]. split; [exact Hs|]. exact Hd.
Defined.

(** X8. [Cleanup] is invisible to senders: when no callback unregisters, a
    send after [Cleanup] makes the deliveries the same send makes without
    it, the loop skipping the entries [Cleanup] would have removed. *)
Theorem cleanup_is_invisible_to_send cur ty tok m st :
  passive (subscriptions st) ->
  exists st1 st2,
    internalSend cur ty tok m st = Done st1
    /\ internalSend cur ty tok m (Cleanup st) = Done st2
    /\ deliveries (Cleanup st) st2 = deliveries st st1.
Proof.
  intros Hp.
  destruct (internalSend_passive cur ty tok m st Hp)
    as (st1 & Hrun1 & _ & _ & _ & Hx1 & _).
  destruct (internalSend_passive cur ty tok m (Cleanup st))
    as (st2 & Hrun2 & _ & _ & _ & Hx2 & _).
  { by apply passive_erase_loop. }
  exists st1, st2. split; [done|]. split; [done|].
  rewrite (deliveries_app _ _ _ Hx1), (deliveries_app _ _ _ Hx2).
  unfold Cleanup. rewrite calls_filter.
  unfold calls. clear.
  induction (subscriptions st) as [|s l IH]; [done|].
  rewrite (filter_cons _ s).
  destruct (decide (selected st ty tok s = true)) as [Es|Es]; [|exact IH].
  cbn [fmap list_fmap]. rewrite filter_cons_True, IH; [done|].
  by apply selected_spec in Es as (_ & _ & ?).
Qed.

(** A destroyed subscriber beside a live one: the send delivers to the live
    one, with and without [Cleanup]. *)
Lemma cleanup_is_invisible_to_send_witness :
  exists st1 st2,
    internalSend 0 MyMessageT noToken hello
      (destroy ephemeral (bus [ephemeralEntry; memberEntry noToken])) = Done st1
    /\ internalSend 0 MyMessageT noToken hello
         (Cleanup (destroy ephemeral (bus [ephemeralEntry; memberEntry noToken])))
       = Done st2
    /\ deliveries
         (Cleanup (destroy ephemeral (bus [ephemeralEntry; memberEntry noToken])))
         st2
       = deliveries
           (destroy ephemeral (bus [ephemeralEntry; memberEntry noToken])) st1.
Proof.
  apply cleanup_is_invisible_to_send. repeat constructor.
Defined.

(** X9. A registration changes no delivery to the entries registered before
    it: when no callback unregisters, a send after [register] makes the
    deliveries it made before, in the same order, followed by one to the new
    entry if that entry passes the tests of the loop. *)
Theorem register_serves_newcomer_last ty0 tok0 r cb cur ty tok m st :
  passive (subscriptions st) ->
  cb_passive cb = true ->
  let e := mkSubscription ty0 tok0 (mkQPointer r) cb in
  exists st1 st2,
    internalSend cur ty tok m st = Done st1
    /\ internalSend cur ty tok m (internalRegister ty0 tok0 r cb st) = Done st2
    /\ deliveries (internalRegister ty0 tok0 r cb st) st2
       = deliveries st st1 ++ (if selected st ty tok e then [(e, m)] else []).
Proof.
  intros Hp Hcb e.
  destruct (internalSend_passive cur ty tok m st Hp)
    as (st1 & Hrun1 & _ & _ & _ & Hx1 & _).
  destruct (internalSend_passive cur ty tok m (internalRegister ty0 tok0 r cb st))
    as (st2 & Hrun2 & _ & _ & _ & Hx2 & _).
  { apply Forall_app. split; [done|]. by repeat constructor. }
  exists st1, st2. split; [done|]. split; [done|].
  rewrite (deliveries_app _ _ _ Hx1), (deliveries_app _ _ _ Hx2).
  unfold calls, internalRegister. cbn [subscriptions set_subscriptions].
  rewrite (list_filter_iff _ (fun s => selected st ty tok s = true))
    by (intros s; by rewrite (selected_ext st)).
  rewrite filter_app, fmap_app. f_equal. fold e.
  rewrite (filter_cons _ e), filter_nil.
  destruct (decide (selected st ty tok e = true)) as [Es|Es].
  - by rewrite Es.
  - apply not_true_is_false in Es. by rewrite Es.
Qed.

(** The member receiver registers after another subscriber and is served
    after it. *)
Lemma register_serves_newcomer_last_witness :
  exists st1 st2,
    internalSend 0 MyMessageT noToken hello (bus [otherEntry]) = Done st1
    /\ internalSend 0 MyMessageT noToken hello
         (internalRegister MyMessageT noToken (Some memberReceiver) (onMessage 1)
            (bus [otherEntry])) = Done st2
    /\ deliveries
         (internalRegister MyMessageT noToken (Some memberReceiver) (onMessage 1)
            (bus [otherEntry])) st2
       = deliveries (bus [otherEntry]) st1 ++ [(memberEntry noToken, hello)].
Proof.
  apply (register_serves_newcomer_last MyMessageT noToken (Some memberReceiver)
           (onMessage 1) 0 MyMessageT noToken hello (bus [otherEntry])).
  - repeat constructor.
  - reflexivity.
Defined.

(** ** The typed templates and the variant payload *)

Lemma QVariant_value_setValue T (x : msg T) :
  QVariant_value T (QVariant_setValue T x) = x.
Proof. by destruct T, x. Qed.

Lemma QVariant_value_other T T' (x : msg T) :
  T' ≠ T -> QVariant_value T' (QVariant_setValue T x) = defaultMsg T'.
Proof. by destruct T, T', x. Qed.

(** X10. The payload survives the variant: whatever the type keys are, each
    delivery made by [Send<T>(message, token)] goes to an entry registered
    under the key of T and carries a variant from which the wrapper of
    [Register<T>] reads back the very message sent. A wrapper for another
    type reads a default-constructed message from it; it is never reached
    when the two types have different keys. *)
Theorem typed_send_hands_over_the_message
    (hash_code : MsgType -> N) cur T (message : msg T) tok st sub var :
  (sub, var) ∈ deliveries st (state_of (SendTMsg hash_code cur T message tok st)) ->
  type sub = hash_code T
  /\ QVariant_value T var = message
  /\ (forall T', T' ≠ T -> QVariant_value T' var = defaultMsg T')
  /\ (forall T' r cb tok' st0,
        sub ∈ subscriptions (RegisterTMsg hash_code T' r cb tok' st0) ->
        sub ∉ subscriptions st0 ->
        hash_code T' = hash_code T).
Proof.
  intros Hin. unfold SendTMsg in Hin.
  apply delivery_selected in Hin as (-> & _ & Hty & _ & _).
  split; [done|]. split; [apply QVariant_value_setValue|].
  split; [intros T' Hne; by apply QVariant_value_other|].
  intros T' r cb tok' st0 Hsub Hnew.
  unfold RegisterTMsg, internalRegister in Hsub.
  cbn [subscriptions set_subscriptions] in Hsub.
  apply elem_of_app in Hsub as [?|Hsub]; [done|].
  apply list_elem_of_singleton in Hsub. subst sub. by rewrite <- Hty.
Qed.

(** The scenario of [register_member_and_send]: the member receiver is
    handed the message sent. *)
Lemma typed_send_hands_over_the_message_witness :
  QVariant_value TMyMessage hello = mkMyMessage 42 "hello".
Proof.
  apply (typed_send_hands_over_the_message
           (fun T => match T with TMyMessage => MyMessageT
                             | TAnotherMessage => AnotherMessageT end)
           0 TMyMessage (mkMyMessage 42 "hello") noToken
           (bus [memberEntry noToken]) (memberEntry noToken) hello).
  by vm_compute; left.
Defined.

(** ** Tokens *)

(** X11. Token equality decides equality of tokens, [operator!=] is its
    negation, a token is empty exactly when it equals the default token,
    and equal tokens hash alike. The token test of the send loop is
    reflexive and symmetric, and the empty token passes it against every
    token on either side; it is not transitive: two different specific
    tokens both match the empty token and do not match each other. *)
Theorem token_rule (qHashString : string -> N -> N) a b :
  (token_eq a b = true <-> a = b)
  /\ token_ne a b = negb (token_eq a b)
  /\ isEmpty a = token_eq a noToken
  /\ (token_eq a b = true -> forall seed,
        qHash qHashString a seed = qHash qHashString b seed)
  /\ tokenMatch a a = true
  /\ tokenMatch a b = tokenMatch b a
  /\ tokenMatch a noToken = true
  /\ tokenMatch noToken a = true
  /\ (isEmpty a = false -> isEmpty b = false -> a ≠ b -> tokenMatch a b = false)
  /\ (forall st ty s,
        selected st ty b s
        = bool_decide (type s = ty) && tokenMatch (token s) b
          && negb (isNull st (receiver s))).
Proof.
  assert (token_eq a b = true <-> a = b) as Heq.
  { destruct a as [x], b as [y]. unfold token_eq. rewrite bool_decide_eq_true.
    cbn. naive_solver. }
  split; [exact Heq|]. split; [done|]. split; [done|]. split.
  { intros H seed. apply Heq in H. by subst. }
  split.
  { unfold tokenMatch, token_eq. rewrite (bool_decide_eq_true_2 (id a = id a)) by done.
    by rewrite orb_true_r. }
  split.
  { unfold tokenMatch, token_eq.
    rewrite (bool_decide_ext (id a = id b) (id b = id a)) by done.
    by destruct (isEmpty a), (isEmpty b). }
  split.
  { unfold tokenMatch. replace (isEmpty noToken) with true by done.
    by rewrite orb_true_r. }
  split; [done|]. split; [|done].
  intros Ha Hb Hne. unfold tokenMatch. rewrite Ha, Hb. cbn [orb].
  apply not_true_iff_false. by rewrite Heq.
Qed.

(** Tokens alpha and beta both match the empty token and not each other. *)
Lemma token_rule_witness :
  tokenMatch alpha beta = false
  /\ tokenMatch alpha noToken = true
  /\ tokenMatch noToken beta = true.
Proof.
  destruct (token_rule (fun _ seed => seed) alpha beta)
    as (_ & _ & _ & _ & _ & _ & Hl & _ & Hne & _).
  destruct (token_rule (fun _ seed => seed) beta alpha)
    as (_ & _ & _ & _ & _ & _ & _ & Hr & _).
  split; [|split; [exact Hl|exact Hr]].
  apply Hne; [reflexivity|reflexivity|discriminate].
Defined.

(** ** Deliveries in flight *)

Lemma posted_tasks_classified o e pre post l (q : list Task) :
  registered_for o e ->
  Forall (fun s => ¬ registered_for o s) (pre ++ post) ->
  callback e = onMessage l ->
  Forall (fun s => cb_writes l (callback s) = false) (pre ++ post) ->
  Forall (fun k => task_sub k ∈ pre ++ e :: post
                   /\ registered_for (target k) (task_sub k)) q ->
  Forall (fun k => (target k = o -> callback (task_sub k) = onMessage l)
                   /\ (target k ≠ o ->
                       cb_writes l (callback (task_sub k)) = false)) q.
Proof.
  intros He Hno Hcb Hw Hq. eapply Forall_impl; [exact Hq|].
  intros k [Hin Hr]. rewrite Forall_forall in Hno, Hw.
  assert (task_sub k ∈ pre ++ post \/ task_sub k = e) as [Hin'|Heq].
  { apply elem_of_app in Hin as [?|Hin]; [left; apply elem_of_app; by left|].
    apply elem_of_cons in Hin as [?|?]; [by right|].
    left. apply elem_of_app. by right. }
  - split; [|intros _; by apply Hw].
    intros <-. by destruct (Hno _ Hin').
  - rewrite Heq in *. split; [done|]. intros Hne. destruct Hne.
    unfold registered_for in *. congruence.
Qed.

(** X12. An unregistration does not call back a delivery already posted.
    Let one live receiver, registered once with the callback of
    [TestReceiver::onMessage], live in another thread than the sender, among
    entries whose callbacks neither unregister nor write its log, the queue
    being empty. After a matching send, [Unregister] of the receiver and a
    second send, its log is still unchanged; when its event loop runs it
    receives the first message and not the second. Had the receiver been
    destroyed instead of unregistered, the event loop would bring it
    nothing. *)
Theorem posted_delivery_survives_unregister
    cur ty tok o e pre post l m1 m2 st :
  subscriptions st = pre ++ e :: post ->
  passive (subscriptions st) ->
  registered_for o e ->
  Forall (fun s => ¬ registered_for o s) (pre ++ post) ->
  alive st o = true ->
  type e = ty ->
  isEmpty (token e) = true \/ isEmpty tok = true \/ token e = tok ->
  callback e = onMessage l ->
  Forall (fun s => cb_writes l (callback s) = false) (pre ++ post) ->
  affinity st o ≠ cur ->
  posted st = [] ->
  exists st1 st2,
    internalSend cur ty tok m1 st = Done st1
    /\ internalSend cur ty tok m2 (Unregister (Some o) st1) = Done st2
    /\ received l st2 = received l st
    /\ received l (processEvents (affinity st o) st2) = received l st ++ [m1]
    /\ received l (processEvents (affinity st o) (destroy o st1)) = received l st.
Proof.
  intros Hsubs Hp He Hno Hal Hty Htok Hcb Hw Hc Hempty.
  pose proof Hno as Hno'. apply Forall_app in Hno' as [Hpre Hpost].
  pose proof Hp as Hp'. rewrite Hsubs in Hp'.
  destruct (internalSend_single cur ty tok o e pre post He Hty Htok Hpre Hpost Hp'
              m1 st Hsubs Hal)
    as (st1 & Hrun1 & Hs1 & Hd1 & Ha1 & _ & (q1 & Hq1 & Hg1 & Hall1) & Hl1).
  rewrite Hempty, app_nil_l in Hq1.
  rewrite bool_decide_eq_false_2 in Hg1 by done.
  specialize (Hl1 l Hw Hcb). rewrite bool_decide_eq_false_2, app_nil_r in Hl1 by done.
  assert (alive st1 o = true) as Hal1 by (unfold alive in *; by rewrite Hd1).
  (* the unregistration *)
  set (U := Unregister (Some o) st1).
  assert (subscriptions U = pre ++ post) as HsU.
  { subst U. rewrite Unregister_erase. cbn [subscriptions set_subscriptions].
    rewrite Hs1, Hsubs, erase_loop_app. cbn [erase_loop].
    rewrite (bool_decide_eq_true_2 (data st1 (receiver e) = Some o))
      by (by apply data_live).
    rewrite <- erase_loop_app. apply erase_loop_none.
    eapply Forall_impl; [exact Hno|]. intros s Hs. cbn beta.
    by apply not_registered_data. }
  apply Forall_app in Hp' as [Hppre Hpepost].
  apply Forall_cons in Hpepost as [_ Hppost].
  (* the second send *)
  destruct (send_loop_passive (subscriptions U) 0 cur ty tok m2 U
              (fresh (subscriptions U)))
    as (st2 & Hloop2 & Hs2 & Hd2 & Ha2 & _ & Hl2 & q2 & Hq2 & Hall2).
  { pose proof (reads_fresh [] (subscriptions U) []) as H.
    by rewrite app_nil_r in H. }
  { rewrite HsU. by apply Forall_app. }
  assert (internalSend cur ty tok m2 U = Done st2) as Hrun2.
  { unfold internalSend. by rewrite Hloop2. }
  assert (received l st2 = received l st) as Hlog2.
  { rewrite Hl2 by (by rewrite HsU). transitivity (received l st1); [done|].
    exact Hl1. }
  exists st1, st2. split; [done|]. split; [exact Hrun2|]. split; [exact Hlog2|].
  assert (Forall (fun k => task_sub k ∈ pre ++ post
                           /\ registered_for (target k) (task_sub k)) q2) as Hall2'.
  { eapply Forall_impl; [exact Hall2|]. intros k (? & ? & _).
    by rewrite <- HsU. }
  split.
  - (* the event loop after the unregistration *)
    unfold processEvents.
    rewrite (run_posted_received (affinity st o) l o).
    + replace (received l (set_posted _ st2)) with (received l st2) by done.
      rewrite Hlog2, Hq2. f_equal.
      change (posted U) with (posted st1). rewrite Hq1, filter_app, Hg1.
      rewrite (filter_target_posted o (pre ++ post) q2 Hno Hall2').
      done.
    + cbn [affinity set_posted]. rewrite Ha2.
      change (affinity U) with (affinity st1). by rewrite Ha1.
    + unfold alive in *. cbn [destroyed set_posted]. rewrite Hd2.
      change (destroyed U) with (destroyed st1). by rewrite Hd1.
    + rewrite Hq2. change (posted U) with (posted st1). rewrite Hq1.
      apply Forall_app. split.
      * by apply (posted_tasks_classified o e pre post).
      * apply (posted_tasks_classified o e pre post); try done.
        eapply Forall_impl; [exact Hall2'|]. intros k [Hin ?]. split; [|done].
        apply elem_of_app in Hin as [?|?]; apply elem_of_app;
          [by left|right; by right].
  - (* the event loop after a destruction *)
    unfold processEvents.
    destruct (run_posted_quiet (affinity st o) l (posted (destroy o st1))
                (set_posted (filter (fun k => affinity (destroy o st1) (target k)
                                              ≠ affinity st o)
                                    (posted (destroy o st1)))
                            (destroy o st1)))
      as [_ Hquiet].
    + cbn [posted destroy]. rewrite Hq1.
      apply Forall_forall. intros k Hk.
      apply list_elem_of_filter in Hk as [Hne Hk].
      rewrite Forall_forall in Hall1. destruct (Hall1 _ Hk) as [Hin Hr].
      assert (task_sub k ∈ pre ++ post) as Hin'.
      { apply elem_of_app in Hin as [?|Hin]; [apply elem_of_app; by left|].
        apply elem_of_cons in Hin as [Heq|?]; [|apply elem_of_app; by right].
        destruct Hne. rewrite Heq in Hr. unfold registered_for in *. congruence. }
      rewrite Forall_forall in Hw. split; [|by apply Hw].
      assert (passive (pre ++ post)) as Hpp by by apply Forall_app.
      unfold passive in Hpp. rewrite Forall_forall in Hpp. by apply Hpp.
    + rewrite Hquiet.
      transitivity (received l st1); [done|]. exact Hl1.
Qed.

(** The scenario of [send_then_immediate_unregister_race_cross_thread]. *)
Lemma posted_delivery_survives_unregister_witness :
  exists st1 st2,
    internalSend 0 MyMessageT noToken first (busWithWorker [otherEntry]) = Done st1
    /\ internalSend 0 MyMessageT noToken second (Unregister (Some otherReceiver) st1)
       = Done st2
    /\ received 4 st2 = []
    /\ received 4 (processEvents 1 st2) = [first]
    /\ received 4 (processEvents 1 (destroy otherReceiver st1)) = [].
Proof.
  apply (posted_delivery_survives_unregister 0 MyMessageT noToken otherReceiver
           otherEntry [] [] 4 first second (busWithWorker [otherEntry])).
  - reflexivity.
  - repeat constructor.
  - reflexivity.
  - constructor.
  - reflexivity.
  - reflexivity.
  - left. reflexivity.
  - reflexivity.
  - constructor.
  - intros H. discriminate H.
  - reflexivity.
Defined.

(** ** The fixture of the tests *)

Lemma received_clear_log_eq l st : received l (clear_log l st) = [].
Proof.
  unfold received, clear_log. cbn [logs].
  rewrite list_filter_filter. rewrite (filter_none _ (logs st)); [done|].
  apply Forall_forall. intros e _ [? ?]. done.
Qed.

Lemma received_clear_log_ne l l' st :
  l' ≠ l -> received l' (clear_log l st) = received l' st.
Proof.
  intros Hne. unfold received, clear_log. cbn [logs].
  rewrite list_filter_filter. f_equal. apply list_filter_iff.
  intros e. split; [tauto|]. intros He. split; [done|congruence].
Qed.

Lemma elem_of_fixture s st :
  s ∈ subscriptions (MessengerTest_init st)
  <-> s ∈ subscriptions st
      /\ isNull st (receiver s) = false
      /\ data st (receiver s) ≠ Some memberReceiver
      /\ data st (receiver s) ≠ Some lambdaReceiver.
Proof.
  unfold MessengerTest_init. rewrite !Unregister_erase. unfold Cleanup.
  cbn [subscriptions set_subscriptions clear_log].
  rewrite !elem_of_erase_loop, !bool_decide_eq_false.
  change (data _ (receiver s)) with (data st (receiver s)).
  change (isNull _ (receiver s)) with (isNull st (receiver s)).
  tauto.
Qed.

(** X13. [MessengerTest::init] leaves, whatever earlier tests left behind, a
    registry holding exactly the entries of live receivers other than the
    two of the test class, in their order, with the two receive lists empty
    and the other lists untouched; so no send then delivers to the two
    receivers. [MessengerTest::cleanup], which runs the same steps in
    another order, leaves the same registry. *)
Theorem fixture_resets_the_bus st :
  let st' := MessengerTest_init st in
  (forall s, s ∈ subscriptions st'
             <-> s ∈ subscriptions st
                 /\ isNull st (receiver s) = false
                 /\ ¬ registered_for memberReceiver s
                 /\ ¬ registered_for lambdaReceiver s)
  /\ subscriptions st' `sublist_of` subscriptions st
  /\ received 1 st' = []
  /\ received 2 st' = []
  /\ (forall l, l ≠ 1 -> l ≠ 2 -> received l st' = received l st)
  /\ subscriptions (MessengerTest_cleanup st) = subscriptions st'
  /\ (forall cur ty tok m sub m',
        (sub, m') ∈ deliveries st' (state_of (internalSend cur ty tok m st')) ->
        ¬ registered_for memberReceiver sub
        /\ ¬ registered_for lambdaReceiver sub).
Proof.
  cbn zeta.
  assert (forall s, s ∈ subscriptions (MessengerTest_init st)
             <-> s ∈ subscriptions st
                 /\ isNull st (receiver s) = false
                 /\ ¬ registered_for memberReceiver s
                 /\ ¬ registered_for lambdaReceiver s) as Hmem.
  { intros s. rewrite elem_of_fixture. split.
    - intros (Hin & Hn & Hm & Hl). repeat split; [done|done| |].
      + intros Hr. apply isNull_false in Hn as (o' & Ht & Ha).
        apply Hm. apply data_live; [done|]. unfold registered_for in Hr.
        congruence.
      + intros Hr. apply isNull_false in Hn as (o' & Ht & Ha).
        apply Hl. apply data_live; [done|]. unfold registered_for in Hr.
        congruence.
    - intros (Hin & Hn & Hm & Hl). repeat split; [done|done| |].
      + intros Hd. apply data_Some in Hd as [? _]. by apply Hm.
      + intros Hd. apply data_Some in Hd as [? _]. by apply Hl. }
  split; [exact Hmem|]. split; [|split; [|split; [|split; [|split]]]].
  - unfold MessengerTest_init. rewrite !Unregister_erase. unfold Cleanup.
    cbn [subscriptions set_subscriptions clear_log].
    etrans; [apply erase_loop_sublist|]. etrans; apply erase_loop_sublist.
  - transitivity (received 1 (clear_log 2 (clear_log 1 st))); [done|].
    rewrite received_clear_log_ne by done. apply received_clear_log_eq.
  - transitivity (received 2 (clear_log 2 (clear_log 1 st))); [done|].
    apply received_clear_log_eq.
  - intros l H1 H2.
    transitivity (received l (clear_log 2 (clear_log 1 st))); [done|].
    by rewrite !received_clear_log_ne.
  - unfold MessengerTest_cleanup, MessengerTest_init.
    rewrite !Unregister_erase. unfold Cleanup.
    cbn [subscriptions set_subscriptions clear_log].
    rewrite (erase_loop_comm (fun it => isNull _ (receiver it))).
    f_equal. rewrite (erase_loop_comm (fun it => isNull _ (receiver it))).
    done.
  - intros cur ty tok m sub m' Hin.
    apply delivery_selected in Hin as (_ & Hsub & _).
    apply Hmem in Hsub as (_ & _ & ? & ?). done.
Qed.

(** ** Unregistration inside a callback, with entries behind *)



(** ** The array and the registry *)

(** X15. The erase loops on the array of the [QList] and on the list
    agree. Whatever array spells a list, the erase loop of [Unregister],
    [Unregister<TMsg>] or [Cleanup], run on it with any condition, leaves
    an array that spells what the same loop leaves of the list, whichever
    side [remove] moves at each erase. *)
Theorem erase_on_the_array_agrees c p L :
  spells p L ->
  spells (erase_loop_array c (size p) 0 p) (erase_loop c L).
Proof.
  intros Hp.
  replace (size p) with (length L)
    by (unfold size; destruct Hp as [-> _]; lia).
  by apply (spells_erase_loop_array c L []).
Qed.

(** Three entries before the entry to erase and two behind: the tail is
    moved. *)
Lemma erase_on_the_array_agrees_witness :
  spells (erase_loop_array (fun s => bool_decide (registered_for lambdaReceiver s))
            6 0
            (fresh [otherEntry; otherEntry; otherEntry; selfEntry;
                    memberEntry noToken; ephemeralEntry]))
         [otherEntry; otherEntry; otherEntry; memberEntry noToken; ephemeralEntry].
Proof.
  refine (erase_on_the_array_agrees
            (fun s => bool_decide (registered_for lambdaReceiver s))
            (fresh [otherEntry; otherEntry; otherEntry; selfEntry;
                    memberEntry noToken; ephemeralEntry])
            [otherEntry; otherEntry; otherEntry; selfEntry;
             memberEntry noToken; ephemeralEntry] _).
  split; [reflexivity|]. intros i Hi.
  do 6 (destruct i as [|i]; [reflexivity|]). cbn in Hi. lia.
Defined.

(** X16. Throughout a send, whatever the callbacks do and however the send
    ends, the array the loop of [internalSend] walks spells the registry:
    the entries a callback has unregistered are out of the live slots, and
    no other entry is. *)
Theorem array_spells_the_registry cur ty tok m st :
  let r := send_loop (length (subscriptions st)) 0 cur ty tok m st
                     (fresh (subscriptions st)) in
  internalSend cur ty tok m st = r.1
  /\ spells r.2 (subscriptions (state_of r.1)).
Proof.
  cbn zeta. split; [done|]. apply spells_send_loop, spells_fresh.
Qed.
